(** * ccomp-uerj-progress-backend: catalog routes, student routes and the
      discipline synchronization contract

    The development follows the repository:
    - [src/routes/disciplines.js]: class-by-number lookup and the scrape trigger;
    - [src/routes/students.js]: the per-student status overlay and student creation;
    - the reconciliation contract and the single-flight guard of the
      synchronization engine ([scraping/scraper.js] over [db/mongo.js]),
      modelled from the specification of the engine. *)

From stdpp Require Import base option list strings gmap fin_maps pretty.

Open Scope string_scope.
Open Scope list_scope.
Open Scope nat_scope.

(** ** Data model *)

(** [c.number] as the catalog stores it: a JavaScript number whose value is
    the integer [n], or a string. *)
Inductive ClassNumber :=
| NumberInt (n : Z)
| NumberStr (s : string).

#[global] Instance ClassNumber_eq_dec : EqDecision ClassNumber.
Proof. solve_decision. Defined.

Record ClassRecord := {
  number : ClassNumber;
  schedule : string;
  professor : string;
  vacancies : Z;
  whatsappGroup : option string
}.

#[global] Instance ClassRecord_eq_dec : EqDecision ClassRecord.
Proof. solve_decision. Defined.

Record DisciplineRecord := {
  disciplineId : string;
  name : string;
  classes : list ClassRecord
}.

#[global] Instance DisciplineRecord_eq_dec : EqDecision DisciplineRecord.
Proof. solve_decision. Defined.

(** A student document as the routes read it, with both discipline arrays. *)
Record Student := {
  studentId : string;
  studentName : string;
  lastName : string;
  completedDisciplines : list string;
  currentDisciplines : list string
}.

(** The object literal handed to [createStudent] by [POST /students]. *)
Record NewStudent := {
  new_studentId : string;
  new_name : string;
  new_lastName : string;
  new_completedDisciplines : list string
}.

(** ** JavaScript primitives used by the handlers *)

(** The integers JavaScript numbers hold exactly and render digit by digit
    ([Number.isSafeInteger]). *)
Definition safeInteger (n : Z) : Prop := (- 2 ^ 53 < n < 2 ^ 53)%Z.

(** [Number.prototype.toString] is JavaScript's and is not written out here:
    past the safe integers it rounds, and from 1e21 on it switches to
    exponent notation.  It is taken as given, and this is all that is used of
    it: a safe integer is rendered in decimal. *)
Definition rendersSafeIntegers (Number_toString : Z → string) : Prop :=
  ∀ n, safeInteger n → Number_toString n = pretty n.

(** [String(v)] on a class number: [Number.prototype.toString] on a number,
    the string itself on a string. *)
Definition String_ (Number_toString : Z → string) (v : ClassNumber) : string :=
  match v with
  | NumberInt n => Number_toString n
  | NumberStr s => s
  end.

(** [Array.prototype.find]: the first element satisfying the callback. *)
Fixpoint Array_find {A} (p : A → bool) (l : list A) : option A :=
  match l with
  | [] => None
  | x :: l' => if p x then Some x else Array_find p l'
  end.

(** [Array.prototype.includes] on an array of strings. *)
Fixpoint includes (l : list string) (x : string) : bool :=
  match l with
  | [] => false
  | y :: l' => if decide (y = x) then true else includes l' x
  end.

(** Truthiness of a field of a JSON body that the API documents as a
    string.  [Some s] is the string [s]; [None] is a field that is absent
    ([undefined]) or carries one of the other falsy JSON values ([null],
    [false], [0]), between which the handlers do not distinguish.  The empty
    string is falsy too. *)
Definition truthy (v : option string) : bool :=
  match v with
  | None => false
  | Some s => negb (bool_decide (s = ""))
  end.

(** The value of such a field where a handler uses it, which it does only
    after finding it truthy. *)
Definition field (v : option string) : string := default "undefined" v.

(** [await e]: the awaited promise resolves to a value or rejects. *)
Inductive Await (A : Type) :=
| Resolves (a : A)
| Rejects (e : string).
Arguments Resolves {A} a.
Arguments Rejects {A} e.

(** ** HTTP responses *)

Inductive Body :=
| ErrorBody (error : string)
| MessageBody (message : string)
| ClassBody (c : ClassRecord)
| DisciplineWithStatus (d : DisciplineRecord) (status : string)
| DisciplinesWithStatus (ds : list (DisciplineRecord * string)).

Record Response := { status : Z; body : Body }.

(** What a handler invocation amounts to: the handler sent a response, or
    its promise rejected with [e] before it sent one.  What the client gets
    in the second case is up to the framework and not to the handler (one
    major version of Express leaves the request unanswered, the next one
    answers 500 from its default error handler). *)
Inductive Outcome :=
| Sends (r : Response)
| Unhandled (e : string).

Definition res_status_send (code : Z) (b : Body) : Outcome :=
  Sends {| status := code; body := b |}.

(** [res.send(b)] without [res.status]: status 200. *)
Definition res_send (b : Body) : Outcome := res_status_send 200 b.

(** The acknowledgment of the scrape trigger. *)
Definition accepted : Outcome :=
  res_status_send 202 (MessageBody "Discipline scraping process started.").

(** ** Requests and process configuration *)

(** [process.env] as the trigger reads it: a variable that is not set reads
    as [undefined]. *)
Record Env := {
  UERJ_MATRICULA : option string;
  UERJ_SENHA : option string;
  PORT : option string
}.

(** What a caller controls in a request. *)
Record Request := {
  req_params : list (string * string);
  req_headers : list (string * string);
  req_body : string
}.

(** ** [src/routes/disciplines.js] *)

Module DisciplinesRoutes.
Section Routes.
(** The storage layer ([db/mongo.js]) and the language's rendering of
    numbers are taken as given. *)
Context {Db : Type}.
Variable Number_toString : Z → string.
Variable getDisciplineById : string → Db → Await (option DisciplineRecord).

(** [router.get('/:id/classes/:classNumber')]; [id] and [classNumber] are
    [req.params.id] and [req.params.classNumber]. *)
Definition get_class (id classNumber : string) (db : Db) : Outcome :=
  match getDisciplineById id db with
  | Rejects e => Unhandled e
  | Resolves None => res_status_send 404 (ErrorBody "Discipline not found")
  | Resolves (Some discipline) =>
      match Array_find (λ c, bool_decide (String_ Number_toString (number c) = classNumber))
                       (classes discipline) with
      | None => res_status_send 404 (ErrorBody "Class not found")
      | Some classInfo => res_send (ClassBody classInfo)
      end
  end.
End Routes.

Section Trigger.
(** [scraping/scraper.js] is taken as given: [Scraper] is whatever state the
    crawl keeps, [Promise] what the call hands back at once.  The handler
    neither awaits nor stores that promise. *)
Context {Scraper Promise : Type}.
Variable scrapeDisciplines : option string → option string → Scraper → Promise * Scraper.
(** Any later progress of a spawned crawl, whatever its result. *)
Variable progress : Scraper → Scraper.

(** [router.post('/actions/scrape')] *)
Definition post_actions_scrape (env : Env) (req : Request) (s : Scraper) : Outcome * Scraper :=
  let '(_, s') := scrapeDisciplines (UERJ_MATRICULA env) (UERJ_SENHA env) s in
  (res_status_send 202 (MessageBody "Discipline scraping process started."), s').

(** The server seen from the trigger: requests arrive, crawls advance. *)
Inductive Event :=
| Trigger (req : Request)
| Progress.

Definition step (env : Env) (ev : Event) (st : list Outcome * Scraper) : list Outcome * Scraper :=
  match ev with
  | Trigger req =>
      let '(o, s') := post_actions_scrape env req (snd st) in (fst st ++ [o], s')
  | Progress => (fst st, progress (snd st))
  end.

Definition serve (env : Env) (evs : list Event) (s : Scraper) : list Outcome * Scraper :=
  foldl (λ st ev, step env ev st) ([], s) evs.

Definition triggers (evs : list Event) : list Request :=
  omap (λ ev, match ev with Trigger r => Some r | Progress => None end) evs.
End Trigger.
End DisciplinesRoutes.

(** ** [src/routes/students.js] *)

Module StudentsRoutes.

(** The part of a [POST /students] body the handler destructures, typed as
    the route documents it: three strings and an array of strings.  [None]
    stands for a field that is absent or falsy ([null], [false], [0], and for
    [completedDisciplines] also the empty string): the handler treats all of
    these alike. *)
Record CreateBody := {
  body_studentId : option string;
  body_name : option string;
  body_lastName : option string;
  body_completedDisciplines : option (list string)
}.

(** The status computed inside both overlay handlers. *)
Definition statusOf (student : Student) (discipline : DisciplineRecord) : string :=
  let status := "not_taken" in
  if includes (completedDisciplines student) (disciplineId discipline) then "completed"
  else if includes (currentDisciplines student) (disciplineId discipline) then "in_progress"
  else status.

Section Routes.
Context {Db : Type}.
Variable getStudentById : string → Db → Await (option Student).
Variable getAllDisciplines : Db → Await (list DisciplineRecord).
Variable getDisciplineById : string → Db → Await (option DisciplineRecord).
Variable createStudent : NewStudent → Db → Await unit * Db.

(** [router.get('/:studentId/disciplines')] *)
Definition get_student_disciplines (sid : string) (db : Db) : Outcome :=
  match getStudentById sid db with
  | Rejects e => Unhandled e
  | Resolves None => res_status_send 404 (ErrorBody "Student not found")
  | Resolves (Some student) =>
      match getAllDisciplines db with
      | Rejects e => Unhandled e
      | Resolves disciplines =>
          res_send (DisciplinesWithStatus
                      (map (λ discipline, (discipline, statusOf student discipline))
                           disciplines))
      end
  end.

(** [router.get('/:studentId/disciplines/:disciplineId')] *)
Definition get_student_discipline (sid did : string) (db : Db) : Outcome :=
  match getStudentById sid db with
  | Rejects e => Unhandled e
  | Resolves None => res_status_send 404 (ErrorBody "Student not found")
  | Resolves (Some student) =>
      match getDisciplineById did db with
      | Rejects e => Unhandled e
      | Resolves None => res_status_send 404 (ErrorBody "Discipline not found")
      | Resolves (Some discipline) =>
          res_send (DisciplineWithStatus discipline (statusOf student discipline))
      end
  end.

(** [router.post('/')]: validation, then the guarded creation inside
    [try]/[catch]. *)
Definition post_student (b : CreateBody) (db : Db) : Outcome * Db :=
  if negb (truthy (body_studentId b)) || negb (truthy (body_name b))
     || negb (truthy (body_lastName b))
  then (res_status_send 400 (ErrorBody "studentId, name and lastName are required"), db)
  else
    let sid := field (body_studentId b) in
    match getStudentById sid db with
    | Rejects _ => (res_status_send 500 (ErrorBody "Error creating student"), db)
    | Resolves (Some _) =>
        (res_status_send 409 (ErrorBody ("Student with ID " +:+ sid +:+ " already exists")), db)
    | Resolves None =>
        match createStudent
                {| new_studentId := sid;
                   new_name := field (body_name b);
                   new_lastName := field (body_lastName b);
                   new_completedDisciplines := default [] (body_completedDisciplines b) |}
                db with
        | (Resolves _, db') =>
            (res_status_send 201 (MessageBody ("Student " +:+ sid +:+ " created successfully")), db')
        | (Rejects _, db') =>
            (res_status_send 500 (ErrorBody "Error creating student"), db')
        end
    end.
End Routes.
End StudentsRoutes.

(** ** The single-flight guard of the crawl entry point *)

Module SyncGuard.

Inductive StartResult := Started | AlreadyRunning.

Inductive Completion := Completed | FailedFatally | Cancelled.

#[global] Instance Completion_eq_dec : EqDecision Completion.
Proof. solve_decision. Defined.

Inductive RunStatus := Active | Ended (c : Completion).

#[global] Instance RunStatus_eq_dec : EqDecision RunStatus.
Proof. solve_decision. Defined.

Record SyncRun := {
  credentials : option string * option string;
  runStatus : RunStatus
}.

(** Modelled from the spec: the guard's run-level lock together with the
    [SyncRun]s started so far. *)
Record Scraper := {
  running : bool;
  runs : list SyncRun
}.

Definition initial : Scraper := {| running := false; runs := [] |}.

(** Modelled from the spec: [SyncGuard.tryStart() → {Started | AlreadyRunning}]
    of [scraping/scraper.js].  A trigger
    received while a run is active does not start a second run and is told
    [AlreadyRunning]; nothing is queued. *)
Definition tryStart (s : Scraper) : StartResult * Scraper :=
  if running s then (AlreadyRunning, s)
  else (Started, {| running := true; runs := runs s |}).

(** Modelled from the spec: the guard is released unconditionally when the
    run completes, fails fatally, or is cancelled. *)
Definition release (s : Scraper) : Scraper :=
  {| running := false; runs := runs s |}.

(** Modelled from the spec: the trigger interface [scrapeDisciplines] of
    [scraping/scraper.js] starts a run via the guard (the guard is folded
    into the orchestrator's entry point) and returns at once. *)
Definition scrapeDisciplines (matricula senha : option string) (s : Scraper)
  : StartResult * Scraper :=
  match tryStart s with
  | (Started, s') =>
      (Started,
       {| running := running s';
          runs := runs s' ++ [{| credentials := (matricula, senha); runStatus := Active |}] |})
  | (AlreadyRunning, s') => (AlreadyRunning, s')
  end.

(** Modelled from the spec: the end of the active run, whatever its way of
    ending, followed by the release of the guard. *)
Definition finishRun (c : Completion) (s : Scraper) : Scraper :=
  release
    {| running := running s;
       runs := map (λ r, if decide (runStatus r = Active)
                         then {| credentials := credentials r; runStatus := Ended c |}
                         else r) (runs s) |}.

Definition activeRuns (s : Scraper) : list SyncRun :=
  filter (λ r, runStatus r = Active) (runs s).

(** The lock is held exactly when one run is active. *)
Definition guard_inv (s : Scraper) : Prop :=
  length (activeRuns s) = if running s then 1 else 0.

(** The events of the guarded server: a trigger request, or the end of the
    active run. *)
Inductive Event :=
| Trigger (req : Request)
| RunEnds (c : Completion).

Definition step (env : Env) (ev : Event) (s : Scraper) : Scraper :=
  match ev with
  | Trigger req => snd (DisciplinesRoutes.post_actions_scrape scrapeDisciplines env req s)
  | RunEnds c => finishRun c s
  end.

Definition exec (env : Env) (evs : list Event) (s : Scraper) : Scraper :=
  foldl (λ st ev, step env ev st) s evs.

End SyncGuard.

(** ** The reconciliation contract of the synchronization engine *)

Module Reconciler.

Inductive FailureKind := NetworkError | ParseError | PersistenceError.

(** Modelled from the spec: the argument [incomingRecordOrFailure] of
    [reconcile], with the discipline-level failure kinds of the taxonomy. *)
Inductive Incoming :=
| Success (rec : DisciplineRecord)
| Failure (kind : FailureKind).

(** Modelled from the spec: the storage interface of [db/mongo.js] consumed
    by the engine; the catalog is keyed by [disciplineId]. *)
Definition getDisciplineById (id : string) (catalog : gmap string DisciplineRecord)
  : option DisciplineRecord := catalog !! id.

(** Modelled from the spec: [getAllDisciplines()] of the same interface. *)
Definition getAllDisciplines (catalog : gmap string DisciplineRecord)
  : list DisciplineRecord := (map_to_list catalog).*2.

(** Modelled from the spec: the [disciplineId]s of the catalog disciplines,
    as [finalizeRun] goes through them. *)
Definition knownDisciplineIds (catalog : gmap string DisciplineRecord)
  : list string := (map_to_list catalog).*1.

(** Modelled from the spec: [upsertDiscipline(record)], insert-or-replace
    keyed by [disciplineId]. *)
Definition upsertDiscipline (record : DisciplineRecord)
  (catalog : gmap string DisciplineRecord) : gmap string DisciplineRecord :=
  <[disciplineId record := record]> catalog.

(** Modelled from the spec: [removeDiscipline(id)], used only from
    [finalizeRun]. *)
Definition removeDiscipline (id : string)
  (catalog : gmap string DisciplineRecord) : gmap string DisciplineRecord :=
  delete id catalog.

(** Modelled from the spec: merge by [number], that is, the stored class an
    incoming class number resolves to. *)
Definition findClass (n : ClassNumber) (l : list ClassRecord) : option ClassRecord :=
  Array_find (λ c, bool_decide (number c = n)) l.

(** Modelled from the spec: [whatsappGroup] is settable only through the
    external interface and is carried over from the existing record; a sync
    never supplies it. *)
Definition carriedWhatsappGroup (existing : option DisciplineRecord) (n : ClassNumber)
  : option string :=
  d ← existing; old ← findClass n (classes d); whatsappGroup old.

(** Modelled from the spec: all fields from the portal overwrite the
    existing ones except [whatsappGroup]. *)
Definition mergeClass (existing : option DisciplineRecord) (c : ClassRecord) : ClassRecord :=
  {| number := number c;
     schedule := schedule c;
     professor := professor c;
     vacancies := vacancies c;
     whatsappGroup := carriedWhatsappGroup existing (number c) |}.

(** Modelled from the spec: the record upserted for discipline [id]; the
    incoming class set replaces the stored one, so a class number absent
    from the payload is removed, taking its [whatsappGroup] with it. *)
Definition mergeRecord (id : string) (existing : option DisciplineRecord)
  (rec : DisciplineRecord) : DisciplineRecord :=
  {| disciplineId := id;
     name := name rec;
     classes := map (mergeClass existing) (classes rec) |}.

(** Modelled from the spec: [reconcile(disciplineId, incomingRecordOrFailure)]
    of the Reconciler.  On success the
    merged record is upserted; on failure the existing record is left
    untouched. *)
Definition reconcile (id : string) (incoming : Incoming)
  (catalog : gmap string DisciplineRecord) : gmap string DisciplineRecord :=
  match incoming with
  | Success rec => upsertDiscipline (mergeRecord id (getDisciplineById id catalog) rec) catalog
  | Failure _ => catalog
  end.

(** Modelled from the spec: reconciling a snapshot, the set of records
    produced by one run, is one [reconcile] per record. *)
Definition reconcileSnapshot (snapshot : list DisciplineRecord)
  (catalog : gmap string DisciplineRecord) : gmap string DisciplineRecord :=
  foldl (λ c rec, reconcile (disciplineId rec) (Success rec) c) catalog snapshot.

(** Class number [m] occurs in every record the snapshot has for
    discipline [k]. *)
Definition inEveryPayload (k : string) (snapshot : list DisciplineRecord)
  (m : ClassNumber) : Prop :=
  ∀ r, r ∈ snapshot → disciplineId r = k → is_Some (findClass m (classes r)).

(** Modelled from the spec: [finalizeRun(enumerationComplete, disciplineIdsSeen)]
    removes, only when [enumerationComplete] is true, every catalog
    discipline whose id is not in [disciplineIdsSeen]. *)
Definition finalizeRun (enumerationComplete : bool) (disciplineIdsSeen : list string)
  (catalog : gmap string DisciplineRecord) : gmap string DisciplineRecord :=
  if enumerationComplete then
    foldl (λ c id, if decide (id ∈ disciplineIdsSeen) then c
                   else removeDiscipline id c)
          catalog (knownDisciplineIds catalog)
  else catalog.

(** Modelled from the spec: the per-discipline outcome kept in a [SyncRun]
    summary. *)
Inductive DisciplineOutcome :=
| succeeded
| failed (kind : FailureKind)
| skipped.

Record SyncRunSummary := {
  outcomes : list (string * DisciplineOutcome);
  enumerationComplete : bool
}.

Definition outcomeOf (i : Incoming) : DisciplineOutcome :=
  match i with
  | Success _ => succeeded
  | Failure k => failed k
  end.

(** Every record is stored under its own [disciplineId]. *)
Definition well_keyed (catalog : gmap string DisciplineRecord) : Prop :=
  ∀ id d, catalog !! id = Some d → disciplineId d = id.

(** Modelled from the spec: fetch, parse and reconcile each dispatched
    discipline reference, the reconciliation being done per discipline as
    each fetch and parse completes. *)
Definition processAll (fetchParse : string → Incoming) (refs : list string)
  (catalog : gmap string DisciplineRecord) : gmap string DisciplineRecord :=
  foldl (λ c ref, reconcile ref (fetchParse ref) c) catalog refs.

(** Modelled from the spec: the orchestrator's run.  [listDisciplines] is
    the listing step ([None] when it fails, which is fatal to the run),
    [fetchParse] the fetch and parse of one reference, and [dispatched] the
    number of references handed to workers before the run stopped.  The
    enumeration is complete only if the listing succeeded and every
    reference was attempted. *)
Definition runSync (listDisciplines : option (list string))
  (fetchParse : string → Incoming) (dispatched : nat)
  (catalog : gmap string DisciplineRecord)
  : gmap string DisciplineRecord * SyncRunSummary :=
  match listDisciplines with
  | None => (finalizeRun false [] catalog, {| outcomes := []; enumerationComplete := false |})
  | Some refs =>
      let attempted := take dispatched refs in
      let complete := bool_decide (length refs ≤ dispatched) in
      (finalizeRun complete attempted (processAll fetchParse attempted catalog),
       {| outcomes := map (λ ref, (ref, outcomeOf (fetchParse ref))) attempted
                      ++ map (λ ref, (ref, skipped)) (drop dispatched refs);
          enumerationComplete := complete |})
  end.

End Reconciler.

(** ** An in-memory store and sample data *)

Module Fixtures.

Record Memory := {
  students : list Student;
  disciplines : list DisciplineRecord
}.

Definition getStudentById (sid : string) (db : Memory) : Await (option Student) :=
  Resolves (Array_find (λ s, bool_decide (studentId s = sid)) (students db)).

Definition getAllDisciplines (db : Memory) : Await (list DisciplineRecord) :=
  Resolves (disciplines db).

Definition getDisciplineById (id : string) (db : Memory) : Await (option DisciplineRecord) :=
  Resolves (Array_find (λ d, bool_decide (disciplineId d = id)) (disciplines db)).

Definition createStudent (s : NewStudent) (db : Memory) : Await unit * Memory :=
  (Resolves (),
   {| students := students db ++
        [{| studentId := new_studentId s;
            studentName := new_name s;
            lastName := new_lastName s;
            completedDisciplines := new_completedDisciplines s;
            currentDisciplines := [] |}];
      disciplines := disciplines db |}).

Definition class1 : ClassRecord :=
  {| number := NumberInt 1; schedule := "SEG M1 M2"; professor := "Ada";
     vacancies := 30; whatsappGroup := Some "linkA" |}.

Definition class2 : ClassRecord :=
  {| number := NumberInt 2; schedule := "TER T1 T2"; professor := "Alan";
     vacancies := 25; whatsappGroup := None |}.

Definition IME01 : DisciplineRecord :=
  {| disciplineId := "IME01"; name := "Calculo I"; classes := [class1; class2] |}.

Definition IME02 : DisciplineRecord :=
  {| disciplineId := "IME02"; name := "Algebra Linear"; classes := [class2] |}.

Definition IME03 : DisciplineRecord :=
  {| disciplineId := "IME03"; name := "Fisica I"; classes := [] |}.

Definition john : Student :=
  {| studentId := "20201010101"; studentName := "John"; lastName := "Doe";
     completedDisciplines := ["IME01"]; currentDisciplines := ["IME02"] |}.

Definition memory : Memory :=
  {| students := [john]; disciplines := [IME01; IME02; IME03] |}.

Definition catalog : gmap string DisciplineRecord :=
  {[ "IME01" := IME01; "IME02" := IME02 ]}.

(** IME01 as the portal reports it: class 1 with new data and no
    [whatsappGroup], class 2 no longer offered, class 3 new. *)
Definition IME01_portal : DisciplineRecord :=
  {| disciplineId := "IME01"; name := "Calculo I";
     classes :=
       [{| number := NumberInt 1; schedule := "QUA M3 M4"; professor := "Grace";
           vacancies := 10; whatsappGroup := None |};
        {| number := NumberInt 3; schedule := "SEX T3 T4"; professor := "Edsger";
           vacancies := 40; whatsappGroup := None |}] |}.

(** A fetch and parse in which IME02 fails to parse. *)
Definition fetchParse (ref : string) : Reconciler.Incoming :=
  if decide (ref = "IME01") then Reconciler.Success IME01_portal
  else Reconciler.Failure Reconciler.ParseError.

(** A creation request that names an existing student and omits [name]. *)
Definition bodyWithoutName : StudentsRoutes.CreateBody :=
  {| StudentsRoutes.body_studentId := Some "20201010101";
     StudentsRoutes.body_name := None;
     StudentsRoutes.body_lastName := Some "Doe";
     StudentsRoutes.body_completedDisciplines := None |}.

(** A creation request for a student the store does not hold, without
    [completedDisciplines]. *)
Definition bodyOfMary : StudentsRoutes.CreateBody :=
  {| StudentsRoutes.body_studentId := Some "20211010102";
     StudentsRoutes.body_name := Some "Mary";
     StudentsRoutes.body_lastName := Some "Roe";
     StudentsRoutes.body_completedDisciplines := None |}.

Definition bodyOfJohn : StudentsRoutes.CreateBody :=
  {| StudentsRoutes.body_studentId := Some "20201010101";
     StudentsRoutes.body_name := Some "John";
     StudentsRoutes.body_lastName := Some "Doe";
     StudentsRoutes.body_completedDisciplines := None |}.

Definition env : Env :=
  {| UERJ_MATRICULA := Some "202010"; UERJ_SENHA := Some "secret"; PORT := None |}.

(** A stand-in for the scraper that only records the arguments of each
    call. *)
Definition spy (matricula senha : option string)
  (calls : list (option string * option string))
  : unit * list (option string * option string) :=
  ((), calls ++ [(matricula, senha)]).

Definition request (b : string) : Request :=
  {| req_params := []; req_headers := [("x-matricula", b)]; req_body := b |}.

(** [Number.prototype.toString] at the numbers the examples render: the safe
    integers, in decimal, and 1e21, which JavaScript renders "1e+21". *)
Definition Number_toString (n : Z) : string :=
  if decide (n = 10 ^ 21)%Z then "1e+21" else pretty n.

(** A class whose number is the JavaScript number 1e21. *)
Definition classBig : ClassRecord :=
  {| number := NumberInt (10 ^ 21); schedule := "SEX N1 N2"; professor := "Emmy";
     vacancies := 5; whatsappGroup := None |}.

Definition IME04 : DisciplineRecord :=
  {| disciplineId := "IME04"; name := "Algebra I"; classes := [classBig] |}.

Definition memoryBig : Memory :=
  {| students := []; disciplines := [IME04] |}.

End Fixtures.

(** ** The remaining handlers of the two routers *)

(** What the remaining handlers hand to [res.send]: one of the bodies above,
    an error with the [details] of the caught exception, or a stored
    document. *)
Inductive Document :=
| Plain (b : Body)
| ErrorDetails (error details : string)
| StudentDoc (s : Student)
| DisciplineDoc (d : DisciplineRecord)
| DisciplineList (ds : list DisciplineRecord).

(** A handler invocation: a response with its status code, or a rejection
    that escapes the [async] handler before it sent one (what the client
    then gets is the framework's affair, as for [Unhandled]). *)
Inductive Reply :=
| Answers (code : Z) (doc : Document)
| Escapes (e : string).

Definition reply_of (o : Outcome) : Reply :=
  match o with
  | Sends r => Answers (status r) (Plain (body r))
  | Unhandled e => Escapes e
  end.

(** The status code of a reply, if there is a response at all. *)
Definition code_of (r : Reply) : option Z :=
  match r with
  | Answers code _ => Some code
  | Escapes _ => None
  end.

(** The result objects of the storage layer the handlers look into. *)
Record UpdateResult := { matchedCount : nat }.
Record DeleteResult := { deletedCount : nat }.

Module DisciplinesCrud.

(** The object literal handed to [updateWhatsappGroup]. *)
Record WhatsappUpdate := {
  upd_disciplineId : string;
  upd_classNumber : string;
  upd_whatsappGroup : option string
}.

Section Routes.
Context {Db : Type}.
Variable getAllDisciplines : Db → Await (list DisciplineRecord).
Variable getDisciplineById : string → Db → Await (option DisciplineRecord).
Variable updateWhatsappGroup : WhatsappUpdate → Db → Await UpdateResult * Db.

(** [router.get('/')] *)
Definition get_disciplines (db : Db) : Reply :=
  match getAllDisciplines db with
  | Rejects e => Escapes e
  | Resolves disciplines => Answers 200 (DisciplineList disciplines)
  end.

(** [router.get('/:id')] *)
Definition get_discipline (id : string) (db : Db) : Reply :=
  match getDisciplineById id db with
  | Rejects e => Escapes e
  | Resolves (Some discipline) => Answers 200 (DisciplineDoc discipline)
  | Resolves None => Answers 404 (Plain (ErrorBody "Discipline not found"))
  end.

(** [router.patch('/:id/classes/:classNumber')]; [whatsappGroup] is the
    field of that name in the request body, [None] when the body has none. *)
Definition patch_class (id classNumber : string) (whatsappGroup : option string)
  (db : Db) : Reply * Db :=
  match updateWhatsappGroup
          {| upd_disciplineId := id;
             upd_classNumber := classNumber;
             upd_whatsappGroup := whatsappGroup |} db with
  | (Resolves result, db') =>
      if decide (matchedCount result = 0)
      then (Answers 404 (Plain (ErrorBody "Discipline or class not found")), db')
      else (Answers 200
              (Plain (MessageBody
                        ("WhatsApp group for class " +:+ classNumber
                         +:+ " updated successfully"))), db')
  | (Rejects _, db') =>
      (Answers 500 (Plain (ErrorBody "Error updating the WhatsApp group")), db')
  end.
End Routes.
End DisciplinesCrud.

Module StudentsCrud.

(** The object literal handed to [updateStudent]. *)
Record StudentUpdate := {
  su_studentId : string;
  su_name : option string;
  su_lastName : option string
}.

(** The object literal handed to [updateCompletedDisciplines] and
    [updateCurrentDisciplines]: the handlers set one of [add] and [remove]
    and leave the other out. *)
Record ArrayUpdate := {
  au_studentId : string;
  au_add : option (list string);
  au_remove : option (list string)
}.

Section Routes.
Context {Db : Type}.
Variable getStudentById : string → Db → Await (option Student).
Variable updateStudent : StudentUpdate → Db → Await UpdateResult * Db.
Variable updateCompletedDisciplines : ArrayUpdate → Db → Await UpdateResult * Db.
Variable updateCurrentDisciplines : ArrayUpdate → Db → Await UpdateResult * Db.
Variable deleteStudent : string → Db → Await DeleteResult * Db.

(** [router.get('/:studentId')] *)
Definition get_student (studentId : string) (db : Db) : Reply :=
  match getStudentById studentId db with
  | Resolves None => Answers 404 (Plain (ErrorBody "Student not found"))
  | Resolves (Some student) => Answers 200 (StudentDoc student)
  | Rejects _ => Answers 500 (Plain (ErrorBody "Error retrieving the student"))
  end.

(** The tail shared by the handlers that update a student: 404 when nothing
    matched, else 200 with [message]; [error] and the exception's message
    when the update throws. *)
Definition answer_update (r : Await UpdateResult * Db) (message error : string)
  : Reply * Db :=
  match r with
  | (Resolves result, db') =>
      if decide (matchedCount result = 0)
      then (Answers 404 (Plain (ErrorBody "Student not found")), db')
      else (Answers 200 (Plain (MessageBody message)), db')
  | (Rejects e, db') => (Answers 500 (ErrorDetails error e), db')
  end.

(** [router.patch('/:studentId')] *)
Definition patch_student (studentId : string) (name lastName : option string)
  (db : Db) : Reply * Db :=
  answer_update
    (updateStudent
       {| su_studentId := studentId; su_name := name; su_lastName := lastName |} db)
    ("Student " +:+ studentId +:+ " updated successfully")
    "Error updating student".

(** [router.put('/:studentId/completed-disciplines/:disciplineId')] *)
Definition put_completed (studentId disciplineId : string) (db : Db) : Reply * Db :=
  answer_update
    (updateCompletedDisciplines
       {| au_studentId := studentId; au_add := Some [disciplineId]; au_remove := None |} db)
    ("Discipline " +:+ disciplineId +:+ " added to student " +:+ studentId)
    "Error updating the student".

(** [router.delete('/:studentId/completed-disciplines/:disciplineId')] *)
Definition delete_completed (studentId disciplineId : string) (db : Db) : Reply * Db :=
  answer_update
    (updateCompletedDisciplines
       {| au_studentId := studentId; au_add := None; au_remove := Some [disciplineId] |} db)
    ("Discipline " +:+ disciplineId +:+ " removed from student " +:+ studentId)
    "Error updating the student".

(** [router.put('/:studentId/current-disciplines/:disciplineId')] *)
Definition put_current (studentId disciplineId : string) (db : Db) : Reply * Db :=
  answer_update
    (updateCurrentDisciplines
       {| au_studentId := studentId; au_add := Some [disciplineId]; au_remove := None |} db)
    ("Discipline " +:+ disciplineId +:+ " added to student " +:+ studentId)
    "Error updating the student".

(** [router.delete('/:studentId/current-disciplines/:disciplineId')] *)
Definition delete_current (studentId disciplineId : string) (db : Db) : Reply * Db :=
  answer_update
    (updateCurrentDisciplines
       {| au_studentId := studentId; au_add := None; au_remove := Some [disciplineId] |} db)
    ("Discipline " +:+ disciplineId +:+ " removed from student " +:+ studentId)
    "Error updating the student".

(** [router.delete('/:studentId')] *)
Definition delete_student (studentId : string) (db : Db) : Reply * Db :=
  match deleteStudent studentId db with
  | (Resolves result, db') =>
      if decide (deletedCount result = 0)
      then (Answers 404 (Plain (ErrorBody "Student not found")), db')
      else (Answers 200
              (Plain (MessageBody ("Student " +:+ studentId +:+ " deleted successfully"))),
            db')
  | (Rejects _, db') =>
      (Answers 500 (Plain (ErrorBody "Error deleting the student")), db')
  end.
End Routes.
End StudentsCrud.

(** A reply is a response whose status code is one of [codes]. *)
Definition answers_within (codes : list Z) (r : Reply) : Prop :=
  ∃ code, code_of r = Some code ∧ code ∈ codes.

(** What ties the reply of an updating handler to the storage call it
    makes: the store is the one the call leaves; 404 exactly when the call
    resolves with nothing matched, 200 with [message] exactly when it
    resolves with a match, and 500 with [error] and the exception's message
    as [details] exactly when it rejects. *)
Definition update_contract {Db : Type} (call : Await UpdateResult * Db)
  (h : Reply * Db) (message error : string) : Prop :=
  h.2 = call.2
  ∧ (h.1 = Answers 404 (Plain (ErrorBody "Student not found"))
     ↔ ∃ r, call.1 = Resolves r ∧ matchedCount r = 0)
  ∧ (h.1 = Answers 200 (Plain (MessageBody message))
     ↔ ∃ r, call.1 = Resolves r ∧ matchedCount r ≠ 0)
  ∧ (∀ e, h.1 = Answers 500 (ErrorDetails error e) ↔ call.1 = Rejects e)
  ∧ answers_within [200; 404; 500]%Z h.1.

(** A required field of a creation request that the handler treats as
    missing, that is, a falsy one: absent, [null], [false] or [0] ([None]), or
    the empty string. *)
Definition lacks (v : option string) : Prop := v = None ∨ v = Some "".

(** ** Route tables ([src/app.js] and the two routers) *)

Module Routing.

(** The request methods for which the two routers register routes. *)
Inductive Method := GET | POST | PUT | PATCH | DELETE.

#[global] Instance Method_eq_dec : EqDecision Method.
Proof. solve_decision. Defined.

(** A segment of a route path: a literal, or a named parameter [:name]. *)
Inductive Segment :=
| Lit (s : string)
| Param (name : string).

(** Routers are created with their defaults, so literals are compared
    without regard to the case of ASCII letters. *)
Definition lower_ascii (c : Ascii.ascii) : Ascii.ascii :=
  let n := Ascii.N_of_ascii c in
  if bool_decide (65 ≤ n ∧ n ≤ 90)%N then Ascii.ascii_of_N (n + 32) else c.

Fixpoint lower (s : string) : string :=
  match s with
  | EmptyString => EmptyString
  | String c s' => String (lower_ascii c) (lower s')
  end.

Definition same_literal (l x : string) : bool := bool_decide (lower l = lower x).

(** Whether a request path, given by its segments as they stand in the URL
    (the path split at its slashes, without the optional trailing slash),
    has the shape of a route path: a literal matches its own text, a
    parameter any non-empty segment, and the whole path has to be used up. *)
Fixpoint shaped (pattern : list Segment) (path : list string) : bool :=
  match pattern, path with
  | [], [] => true
  | Lit l :: pattern', x :: path' => same_literal l x && shaped pattern' path'
  | Param _ :: pattern', x :: path' => negb (bool_decide (x = "")) && shaped pattern' path'
  | _, _ => false
  end.

(** The outcome of matching one route path: the path has another shape, or
    it has the shape but a parameter does not decode, or it matches with
    these parameter values. *)
Inductive Matching :=
| NoMatch
| BadParam
| Matched (params : list (string * string)).

(** The outcome of a router: no route took the request, or a parameter of a
    route path of the request's shape did not decode (the framework then
    answers 400), or the request goes to a handler with its parameters. *)
Inductive Dispatch (H : Type) :=
| Unrouted
| Undecodable
| Routed (h : H) (params : list (string * string)).
Arguments Unrouted {H}.
Arguments Undecodable {H}.
Arguments Routed {H} h params.

Record Route (H : Type) := {
  route_method : Method;
  route_path : list Segment;
  route_handler : H
}.
Arguments route_method {H} _.
Arguments route_path {H} _.
Arguments route_handler {H} _.

(** The handlers of [src/routes/disciplines.js], in registration order. *)
Inductive DisciplinesHandler :=
| GetDisciplines
| GetDiscipline
| GetClass
| PostScrape
| PatchClass.

Definition disciplinesRouter : list (Route DisciplinesHandler) :=
  [ {| route_method := GET; route_path := []; route_handler := GetDisciplines |};
    {| route_method := GET; route_path := [Param "id"]; route_handler := GetDiscipline |};
    {| route_method := GET;
       route_path := [Param "id"; Lit "classes"; Param "classNumber"];
       route_handler := GetClass |};
    {| route_method := POST; route_path := [Lit "actions"; Lit "scrape"];
       route_handler := PostScrape |};
    {| route_method := PATCH;
       route_path := [Param "id"; Lit "classes"; Param "classNumber"];
       route_handler := PatchClass |} ].

(** The handlers of [src/routes/students.js], in registration order. *)
Inductive StudentsHandler :=
| GetStudent
| GetStudentDisciplines
| GetStudentDiscipline
| PostStudent
| PatchStudent
| PutCompleted
| DeleteCompleted
| PutCurrent
| DeleteCurrent
| DeleteStudent.

Definition studentsRouter : list (Route StudentsHandler) :=
  [ {| route_method := GET; route_path := [Param "studentId"];
       route_handler := GetStudent |};
    {| route_method := GET; route_path := [Param "studentId"; Lit "disciplines"];
       route_handler := GetStudentDisciplines |};
    {| route_method := GET;
       route_path := [Param "studentId"; Lit "disciplines"; Param "disciplineId"];
       route_handler := GetStudentDiscipline |};
    {| route_method := POST; route_path := []; route_handler := PostStudent |};
    {| route_method := PATCH; route_path := [Param "studentId"];
       route_handler := PatchStudent |};
    {| route_method := PUT;
       route_path := [Param "studentId"; Lit "completed-disciplines"; Param "disciplineId"];
       route_handler := PutCompleted |};
    {| route_method := DELETE;
       route_path := [Param "studentId"; Lit "completed-disciplines"; Param "disciplineId"];
       route_handler := DeleteCompleted |};
    {| route_method := PUT;
       route_path := [Param "studentId"; Lit "current-disciplines"; Param "disciplineId"];
       route_handler := PutCurrent |};
    {| route_method := DELETE;
       route_path := [Param "studentId"; Lit "current-disciplines"; Param "disciplineId"];
       route_handler := DeleteCurrent |};
    {| route_method := DELETE; route_path := [Param "studentId"];
       route_handler := DeleteStudent |} ].

(** Where [src/app.js] sends a request: to the API documentation, to a
    handler of one of the two routers with the parameters of its path, or
    to the framework's 400 for a parameter that does not decode. *)
Inductive Target :=
| ApiDocs (rest : list string)
| ToDisciplines (h : DisciplinesHandler) (params : list (string * string))
| ToStudents (h : StudentsHandler) (params : list (string * string))
| BadParameter.

Section Decoding.
(** [decodeURIComponent], which the router applies to the segment of every
    parameter, is taken as given; [None] is the [URIError] it throws on a
    segment that does not decode. *)
Variable decodeURIComponent : string → option string.

(** The parameters of a path that has the shape of the route path, each
    percent-decoded, in the order of the route path; [None] when one of them
    does not decode. *)
Fixpoint decode_params (pattern : list Segment) (path : list string)
  : option (list (string * string)) :=
  match pattern, path with
  | Param name :: pattern', x :: path' =>
      match decodeURIComponent x with
      | Some v => cons (name, v) <$> decode_params pattern' path'
      | None => None
      end
  | Lit _ :: pattern', _ :: path' => decode_params pattern' path'
  | _, _ => Some []
  end.

(** Matching a route path against a request path. *)
Definition match_path (pattern : list Segment) (path : list string) : Matching :=
  if shaped pattern path then
    match decode_params pattern path with
    | Some params => Matched params
    | None => BadParam
    end
  else NoMatch.

(** A router goes through its routes in registration order.  A route is
    matched by its path first: a parameter that does not decode ends the
    search with an error, whatever the method of that route; a path that
    matches is taken if the route is of the request's method. *)
Fixpoint dispatch {H : Type} (routes : list (Route H)) (m : Method) (path : list string)
  : Dispatch H :=
  match routes with
  | [] => Unrouted
  | r :: routes' =>
      match match_path (route_path r) path with
      | NoMatch => dispatch routes' m path
      | BadParam => Undecodable
      | Matched params =>
          if decide (route_method r = m) then Routed (route_handler r) params
          else dispatch routes' m path
      end
  end.

(** The three [app.use(prefix, router)] of [src/app.js], tried in order; a
    request no router takes is left to the framework's 404. *)
Definition app (m : Method) (path : list string) : option Target :=
  match path with
  | [] => None
  | prefix :: rest =>
      if same_literal "api-docs" prefix then Some (ApiDocs rest)
      else
        match (if same_literal "disciplines" prefix
               then dispatch disciplinesRouter m rest else Unrouted) with
        | Routed h params => Some (ToDisciplines h params)
        | Undecodable => Some BadParameter
        | Unrouted =>
            match (if same_literal "students" prefix
                   then dispatch studentsRouter m rest else Unrouted) with
            | Routed h params => Some (ToStudents h params)
            | Undecodable => Some BadParameter
            | Unrouted => None
            end
        end
  end.
End Decoding.

(** The parameter names of a route path, in order. *)
Definition param_names (pattern : list Segment) : list string :=
  omap (λ s, match s with Param name => Some name | Lit _ => None end) pattern.

(** Two route paths whose shape some request path can have both: the same
    number of segments, and equal literals wherever both have one. *)
Fixpoint overlapping (p q : list Segment) : bool :=
  match p, q with
  | [], [] => true
  | Lit a :: p', Lit b :: q' => same_literal a b && overlapping p' q'
  | _ :: p', _ :: q' => overlapping p' q'
  | _, _ => false
  end.

(** Two route paths with parameters at the same places. *)
Fixpoint aligned (p q : list Segment) : bool :=
  match p, q with
  | [], [] => true
  | Lit _ :: p', Lit _ :: q' => aligned p' q'
  | Param _ :: p', Param _ :: q' => aligned p' q'
  | _, _ => false
  end.

(** [decodeURIComponent] on the segments the examples use: a segment
    without a percent sign decodes to itself.  Escape sequences are left
    out of the examples and are not decoded here. *)
Fixpoint plain (s : string) : bool :=
  match s with
  | EmptyString => true
  | String c s' => negb (bool_decide (Ascii.N_of_ascii c = 37%N)) && plain s'
  end.

Definition decodePlain (s : string) : option string :=
  if plain s then Some s else None.

End Routing.

(** ** In-memory updates for the sample store *)

Module MemoryStore.
Import Fixtures.

Definition has_student (sid : string) (db : Memory) : bool :=
  bool_decide (Exists (λ s, studentId s = sid) (students db)).

Definition matched (sid : string) (db : Memory) : UpdateResult :=
  {| matchedCount := if has_student sid db then 1 else 0 |}.

Definition updateStudent (u : StudentsCrud.StudentUpdate) (db : Memory)
  : Await UpdateResult * Memory :=
  (Resolves (matched (StudentsCrud.su_studentId u) db),
   {| students :=
        map (λ s, if decide (studentId s = StudentsCrud.su_studentId u)
                  then {| studentId := studentId s;
                          studentName := default (studentName s) (StudentsCrud.su_name u);
                          lastName := default (lastName s) (StudentsCrud.su_lastName u);
                          completedDisciplines := completedDisciplines s;
                          currentDisciplines := currentDisciplines s |}
                  else s) (students db);
      disciplines := disciplines db |}).

Definition apply_update (u : StudentsCrud.ArrayUpdate) (l : list string) : list string :=
  filter (λ x, x ∉ default [] (StudentsCrud.au_remove u))
         (l ++ filter (λ x, x ∉ l) (default [] (StudentsCrud.au_add u))).

Definition updateCompletedDisciplines (u : StudentsCrud.ArrayUpdate) (db : Memory)
  : Await UpdateResult * Memory :=
  (Resolves (matched (StudentsCrud.au_studentId u) db),
   {| students :=
        map (λ s, if decide (studentId s = StudentsCrud.au_studentId u)
                  then {| studentId := studentId s;
                          studentName := studentName s;
                          lastName := lastName s;
                          completedDisciplines := apply_update u (completedDisciplines s);
                          currentDisciplines := currentDisciplines s |}
                  else s) (students db);
      disciplines := disciplines db |}).

Definition updateCurrentDisciplines (u : StudentsCrud.ArrayUpdate) (db : Memory)
  : Await UpdateResult * Memory :=
  (Resolves (matched (StudentsCrud.au_studentId u) db),
   {| students :=
        map (λ s, if decide (studentId s = StudentsCrud.au_studentId u)
                  then {| studentId := studentId s;
                          studentName := studentName s;
                          lastName := lastName s;
                          completedDisciplines := completedDisciplines s;
                          currentDisciplines := apply_update u (currentDisciplines s) |}
                  else s) (students db);
      disciplines := disciplines db |}).

Definition deleteStudent (sid : string) (db : Memory) : Await DeleteResult * Memory :=
  (Resolves {| deletedCount := if has_student sid db then 1 else 0 |},
   {| students := filter (λ s, studentId s ≠ sid) (students db);
      disciplines := disciplines db |}).

(** The sample student with the arrays in another order and with repeats. *)
Definition johnShuffled : Student :=
  {| studentId := "20201010101"; studentName := "John"; lastName := "Doe";
     completedDisciplines := ["IME01"; "IME01"];
     currentDisciplines := ["IME02"; "IME02"] |}.

(** The sample student once IME03 is completed too. *)
Definition johnAfterIME03 : Student :=
  {| studentId := "20201010101"; studentName := "John"; lastName := "Doe";
     completedDisciplines := ["IME01"; "IME03"];
     currentDisciplines := ["IME02"] |}.

End MemoryStore.

(** * Properties *)

(** ** JavaScript primitives *)

Lemma Array_find_Some {A} (p : A → bool) (l : list A) (x : A) :
  Array_find p l = Some x ↔
  ∃ l1 l2, l = l1 ++ x :: l2 ∧ p x = true ∧ ∀ y, y ∈ l1 → p y = false.
Proof.
  split.
  - induction l as [|a l IH]; simpl; [done|].
    destruct (p a) eqn:Hpa.
    + intros [= ->]. exists [], l. split_and!; [done|done|]. by intros y ?%elem_of_nil.
    + intros (l1 & l2 & -> & Hx & Hl1)%IH. exists (a :: l1), l2.
      split_and!; [done|done|]. intros y [->|?]%elem_of_cons; auto.
  - intros (l1 & l2 & -> & Hx & Hl1). induction l1 as [|a l1 IH]; simpl.
    + by rewrite Hx.
    + rewrite (Hl1 a) by left. apply IH. intros y ?. apply Hl1. by right.
Qed.

Lemma Array_find_None {A} (p : A → bool) (l : list A) :
  Array_find p l = None ↔ ∀ y, y ∈ l → p y = false.
Proof.
  induction l as [|a l IH]; simpl.
  - split; [|done]. by intros _ y ?%elem_of_nil.
  - destruct (p a) eqn:Hpa.
    + split; [done|]. intros H. specialize (H a ltac:(by left)). congruence.
    + rewrite IH. split.
      * intros H y [->|?]%elem_of_cons; auto.
      * intros H y ?. apply H. by right.
Qed.

Lemma includes_elem_of (l : list string) (x : string) :
  includes l x = true ↔ x ∈ l.
Proof.
  induction l as [|y l IH]; simpl.
  - split; [done|]. by intros ?%elem_of_nil.
  - case_decide as Hy.
    + subst. split; [|done]. intros _. left.
    + rewrite IH. split; [by right|]. by intros [->|?]%elem_of_cons.
Qed.

Lemma includes_not_elem_of (l : list string) (x : string) :
  includes l x = false ↔ x ∉ l.
Proof. rewrite <-includes_elem_of. by destruct (includes l x). Qed.

(** ** Class lookup by number *)

Lemma Number_toString_safe : rendersSafeIntegers Fixtures.Number_toString.
Proof.
  intros n [Hlo Hhi]. unfold Fixtures.Number_toString.
  rewrite decide_False; [done|]. intros ->. revert Hhi. by vm_compute.
Qed.

Section ClassLookup.
Context {Db : Type}.
Variable Number_toString : Z → string.
Variable getDisciplineById : string → Db → Await (option DisciplineRecord).

(** C9 (amended). [GET /disciplines/:id/classes/:classNumber] answers 404
    'Discipline not found' when the discipline is absent; otherwise it sends
    the first class of the discipline's class list whose [String(c.number)]
    equals the [classNumber] parameter the handler receives, and 404 'Class
    not found' when no class does.  An integer class number in the
    safe-integer range is rendered in decimal, so that it matches exactly its
    decimal string and such numbers match different strings; a string class
    number matches exactly the parameter equal to it. *)
Theorem get_class_first_match (id classNumber : string) (db : Db) :
  rendersSafeIntegers Number_toString →
  match getDisciplineById id db with
  | Rejects e =>
      DisciplinesRoutes.get_class Number_toString getDisciplineById id classNumber db
      = Unhandled e
  | Resolves None =>
      DisciplinesRoutes.get_class Number_toString getDisciplineById id classNumber db
      = res_status_send 404 (ErrorBody "Discipline not found")
  | Resolves (Some d) =>
      (∃ l1 c l2,
          classes d = l1 ++ c :: l2
          ∧ String_ Number_toString (number c) = classNumber
          ∧ (∀ c', c' ∈ l1 → String_ Number_toString (number c') ≠ classNumber)
          ∧ DisciplinesRoutes.get_class Number_toString getDisciplineById id classNumber db
            = res_status_send 200 (ClassBody c))
      ∨ ((∀ c, c ∈ classes d → String_ Number_toString (number c) ≠ classNumber)
         ∧ DisciplinesRoutes.get_class Number_toString getDisciplineById id classNumber db
           = res_status_send 404 (ErrorBody "Class not found"))
  end
  ∧ (∀ n m : Z, safeInteger n → safeInteger m →
       String_ Number_toString (NumberInt n) = String_ Number_toString (NumberInt m) →
       n = m)
  ∧ (∀ n : Z, safeInteger n →
       (String_ Number_toString (NumberInt n) = classNumber ↔ classNumber = pretty n))
  ∧ (∀ s : string, String_ Number_toString (NumberStr s) = classNumber ↔ s = classNumber).
Proof.
  intros Hsafe. split_and!.
  - unfold DisciplinesRoutes.get_class.
    destruct (getDisciplineById id db) as [[d|]|e]; [|done..].
    destruct (Array_find _ (classes d)) as [c|] eqn:Hfind.
    + left. apply Array_find_Some in Hfind as (l1 & l2 & Hcl & Hc & Hl1).
      exists l1, c, l2. split_and!; [done| |..|done].
      * by apply bool_decide_eq_true in Hc.
      * intros c' Hc'. apply Hl1 in Hc'. by apply bool_decide_eq_false in Hc'.
    + right. split; [|done]. intros c Hc.
      eapply Array_find_None in Hfind; [|done]. by apply bool_decide_eq_false in Hfind.
  - intros n m Hn Hm. simpl. rewrite (Hsafe n Hn), (Hsafe m Hm).
    intros Heq. by apply (inj pretty) in Heq.
  - intros n Hn. simpl. rewrite (Hsafe n Hn). split; by intros ->.
  - intros s. simpl. done.
Qed.

End ClassLookup.

(** The lookup on the sample catalog: class 2 of IME01 is found under the
    parameter "2". *)
Lemma get_class_first_match_witness :
  DisciplinesRoutes.get_class Fixtures.Number_toString Fixtures.getDisciplineById
    "IME01" "2" Fixtures.memory
  = res_status_send 200 (ClassBody Fixtures.class2).
Proof.
  destruct (get_class_first_match Fixtures.Number_toString Fixtures.getDisciplineById
              "IME01" "2" Fixtures.memory Number_toString_safe)
    as [H _].
  vm_compute in H. vm_compute.
  destruct H as [(l1 & c & l2 & _ & _ & _ & H)|[_ H]]; [reflexivity|discriminate H].
Defined.

(** C9 as first stated fails: a numeric class number does not always match
    its exact decimal string only.  The class whose number is 1e21 is found
    under "1e+21", which is how JavaScript renders that number, and is not
    found under its decimal string. *)
Lemma get_class_numeric_counterexample :
  number Fixtures.classBig = NumberInt (10 ^ 21)
  ∧ Fixtures.Number_toString (10 ^ 21) = "1e+21"
  ∧ pretty (10 ^ 21)%Z = "1000000000000000000000"
  ∧ DisciplinesRoutes.get_class Fixtures.Number_toString Fixtures.getDisciplineById
      "IME04" "1e+21" Fixtures.memoryBig
    = res_status_send 200 (ClassBody Fixtures.classBig)
  ∧ DisciplinesRoutes.get_class Fixtures.Number_toString Fixtures.getDisciplineById
      "IME04" "1000000000000000000000" Fixtures.memoryBig
    = res_status_send 404 (ErrorBody "Class not found").
Proof. split_and!; by vm_compute. Qed.

(** ** Per-student status overlay *)

Lemma statusOf_completed (student : Student) (d : DisciplineRecord) :
  disciplineId d ∈ completedDisciplines student →
  StudentsRoutes.statusOf student d = "completed".
Proof.
  intros Hin%includes_elem_of. unfold StudentsRoutes.statusOf. by rewrite Hin.
Qed.

Lemma statusOf_in_progress (student : Student) (d : DisciplineRecord) :
  disciplineId d ∉ completedDisciplines student →
  disciplineId d ∈ currentDisciplines student →
  StudentsRoutes.statusOf student d = "in_progress".
Proof.
  intros Hout%includes_not_elem_of Hin%includes_elem_of.
  unfold StudentsRoutes.statusOf. by rewrite Hout, Hin.
Qed.

Lemma statusOf_not_taken (student : Student) (d : DisciplineRecord) :
  disciplineId d ∉ completedDisciplines student →
  disciplineId d ∉ currentDisciplines student →
  StudentsRoutes.statusOf student d = "not_taken".
Proof.
  intros Hout%includes_not_elem_of Hout'%includes_not_elem_of.
  unfold StudentsRoutes.statusOf. by rewrite Hout, Hout'.
Qed.

Section StatusOverlay.
Context {Db : Type}.
Variable getStudentById : string → Db → Await (option Student).
Variable getAllDisciplines : Db → Await (list DisciplineRecord).
Variable getDisciplineById : string → Db → Await (option DisciplineRecord).

(** C6. For a stored student, both overlay routes report, for each
    discipline, "completed" if the student's completedDisciplines contains
    its disciplineId, else "in_progress" if currentDisciplines contains it,
    else "not_taken"; an id in both sets is reported "completed".  The
    listing route answers with one entry per catalog discipline, in order. *)
Theorem status_overlay (sid : string) (db : Db) (student : Student) :
  getStudentById sid db = Resolves (Some student) →
  (∀ ds, getAllDisciplines db = Resolves ds →
     ∃ out,
       StudentsRoutes.get_student_disciplines getStudentById getAllDisciplines sid db
       = res_status_send 200 (DisciplinesWithStatus out)
       ∧ out.*1 = ds
       ∧ ∀ d st, (d, st) ∈ out →
           (disciplineId d ∈ completedDisciplines student → st = "completed")
           ∧ (disciplineId d ∉ completedDisciplines student →
              disciplineId d ∈ currentDisciplines student → st = "in_progress")
           ∧ (disciplineId d ∉ completedDisciplines student →
              disciplineId d ∉ currentDisciplines student → st = "not_taken"))
  ∧ (∀ did d, getDisciplineById did db = Resolves (Some d) →
     ∃ st,
       StudentsRoutes.get_student_discipline getStudentById getDisciplineById sid did db
       = res_status_send 200 (DisciplineWithStatus d st)
       ∧ (disciplineId d ∈ completedDisciplines student → st = "completed")
       ∧ (disciplineId d ∉ completedDisciplines student →
          disciplineId d ∈ currentDisciplines student → st = "in_progress")
       ∧ (disciplineId d ∉ completedDisciplines student →
          disciplineId d ∉ currentDisciplines student → st = "not_taken")).
Proof.
  intros Hstudent. split.
  - intros ds Hds.
    exists (map (λ d, (d, StudentsRoutes.statusOf student d)) ds).
    unfold StudentsRoutes.get_student_disciplines. rewrite Hstudent, Hds.
    split_and!; [done| |].
    + clear Hds. induction ds as [|d ds IH]; [done|]. simpl. by f_equal.
    + intros d st (d' & [= -> ->] & _)%list_elem_of_fmap.
      split_and!;
        eauto using statusOf_completed, statusOf_in_progress, statusOf_not_taken.
  - intros did d Hd. exists (StudentsRoutes.statusOf student d).
    unfold StudentsRoutes.get_student_discipline. rewrite Hstudent, Hd.
    split_and!;
      eauto using statusOf_completed, statusOf_in_progress, statusOf_not_taken.
Qed.

End StatusOverlay.

(** The overlay for the sample student: IME01, which the student has
    completed, is reported "completed". *)
Lemma status_overlay_witness :
  Fixtures.getStudentById "20201010101" Fixtures.memory = Resolves (Some Fixtures.john)
  ∧ ∃ st, StudentsRoutes.get_student_discipline
            Fixtures.getStudentById Fixtures.getDisciplineById
            "20201010101" "IME01" Fixtures.memory
          = res_status_send 200 (DisciplineWithStatus Fixtures.IME01 st)
          ∧ st = "completed".
Proof.
  split; [reflexivity|].
  destruct (status_overlay Fixtures.getStudentById Fixtures.getAllDisciplines
              Fixtures.getDisciplineById "20201010101" Fixtures.memory Fixtures.john
              eq_refl) as [_ Hone].
  destruct (Hone "IME01" Fixtures.IME01 eq_refl) as (st & Hst & Hc & _).
  exists st. split; [exact Hst|]. apply Hc. simpl. apply elem_of_cons. by left.
Defined.

(** ** Student creation *)

Section StudentCreation.
Context {Db : Type}.
Variable getStudentById : string → Db → Await (option Student).
Variable createStudent : NewStudent → Db → Await unit * Db.

(** A request lacking one of the required fields is answered 400 before any
    lookup, and the store is left as it was. *)
Lemma post_student_invalid (b : StudentsRoutes.CreateBody) (db : Db) :
  truthy (StudentsRoutes.body_studentId b) = false
  ∨ truthy (StudentsRoutes.body_name b) = false
  ∨ truthy (StudentsRoutes.body_lastName b) = false →
  StudentsRoutes.post_student getStudentById createStudent b db
  = (res_status_send 400 (ErrorBody "studentId, name and lastName are required"), db).
Proof.
  unfold StudentsRoutes.post_student.
  intros [->|[->| ->]]; simpl; [done| |].
  - by rewrite orb_true_r.
  - by rewrite orb_true_r.
Qed.

(** C10 (amended). For every [POST /students] request in which studentId,
    name and lastName are all non-empty strings: if a student with that
    studentId already exists, the answer is 409 and the student store is
    unchanged; if none exists, the student is created by [createStudent] from
    the record whose completedDisciplines is the body's, or the empty list
    when the body has none, and the answer is 201 once that call succeeds and
    500 if it throws, over the store the call leaves. *)
Theorem post_student_guarded (b : StudentsRoutes.CreateBody) (db : Db) (sid nm ln : string) :
  StudentsRoutes.body_studentId b = Some sid → sid ≠ "" →
  StudentsRoutes.body_name b = Some nm → nm ≠ "" →
  StudentsRoutes.body_lastName b = Some ln → ln ≠ "" →
  (∀ existing, getStudentById sid db = Resolves (Some existing) →
     StudentsRoutes.post_student getStudentById createStudent b db
     = (res_status_send 409 (ErrorBody ("Student with ID " +:+ sid +:+ " already exists")),
        db))
  ∧ (getStudentById sid db = Resolves None →
     ∃ completed,
       match StudentsRoutes.body_completedDisciplines b with
       | Some l => completed = l
       | None => completed = []
       end
       ∧ StudentsRoutes.post_student getStudentById createStudent b db
         = (match (createStudent
                     {| new_studentId := sid; new_name := nm; new_lastName := ln;
                        new_completedDisciplines := completed |} db).1 with
            | Resolves _ =>
                res_status_send 201
                  (MessageBody ("Student " +:+ sid +:+ " created successfully"))
            | Rejects _ => res_status_send 500 (ErrorBody "Error creating student")
            end,
            (createStudent
               {| new_studentId := sid; new_name := nm; new_lastName := ln;
                  new_completedDisciplines := completed |} db).2)).
Proof.
  intros Hsid Hsid' Hnm Hnm' Hln Hln'.
  unfold StudentsRoutes.post_student, truthy. rewrite Hsid, Hnm, Hln. simpl.
  rewrite !bool_decide_eq_false_2 by done. simpl.
  split.
  - intros existing ->. done.
  - intros ->. exists (default [] (StudentsRoutes.body_completedDisciplines b)).
    split; [by destruct (StudentsRoutes.body_completedDisciplines b)|].
    by destruct (createStudent _ db) as [[r|e] db'].
Qed.

End StudentCreation.

(** Creating the sample student a second time is refused with 409 and the
    store stays the same; creating a student the store does not hold is
    answered 201. *)
Lemma post_student_guarded_witness :
  StudentsRoutes.post_student Fixtures.getStudentById Fixtures.createStudent
    Fixtures.bodyOfJohn Fixtures.memory
  = (res_status_send 409 (ErrorBody "Student with ID 20201010101 already exists"),
     Fixtures.memory)
  ∧ (StudentsRoutes.post_student Fixtures.getStudentById Fixtures.createStudent
       Fixtures.bodyOfMary Fixtures.memory).1
    = res_status_send 201 (MessageBody "Student 20211010102 created successfully").
Proof.
  split.
  - refine (proj1 (post_student_guarded Fixtures.getStudentById Fixtures.createStudent
                     Fixtures.bodyOfJohn Fixtures.memory "20201010101" "John" "Doe"
                     eq_refl _ eq_refl _ eq_refl _) Fixtures.john eq_refl);
      discriminate.
  - destruct (proj2 (post_student_guarded Fixtures.getStudentById Fixtures.createStudent
                       Fixtures.bodyOfMary Fixtures.memory "20211010102" "Mary" "Roe"
                       eq_refl ltac:(discriminate) eq_refl ltac:(discriminate)
                       eq_refl ltac:(discriminate)) eq_refl)
      as (completed & Hcompleted & Hpost).
    simpl in Hcompleted. subst completed. rewrite Hpost. reflexivity.
Defined.

(** C10 as first stated fails: a request naming an existing student but
    carrying no [name] is answered 400, not 409. *)
Lemma post_student_conflict_counterexample :
  Fixtures.getStudentById "20201010101" Fixtures.memory = Resolves (Some Fixtures.john)
  ∧ StudentsRoutes.body_studentId Fixtures.bodyWithoutName = Some "20201010101"
  ∧ fst (StudentsRoutes.post_student Fixtures.getStudentById Fixtures.createStudent
           Fixtures.bodyWithoutName Fixtures.memory)
    = res_status_send 400 (ErrorBody "studentId, name and lastName are required")
  ∧ ∀ b, fst (StudentsRoutes.post_student Fixtures.getStudentById Fixtures.createStudent
                Fixtures.bodyWithoutName Fixtures.memory)
         ≠ res_status_send 409 b.
Proof.
  split_and!; [reflexivity|reflexivity| |].
  - rewrite post_student_invalid; [reflexivity|]. right; left; reflexivity.
  - intros b. rewrite post_student_invalid; [discriminate|]. right; left; reflexivity.
Qed.

(** ** The scrape trigger *)

Section TriggerProperties.
Context {Scraper Promise : Type}.
Variable scrapeDisciplines : option string → option string → Scraper → Promise * Scraper.
Variable progress : Scraper → Scraper.

Lemma post_actions_scrape_fst (env : Env) (req : Request) (s : Scraper) :
  (DisciplinesRoutes.post_actions_scrape scrapeDisciplines env req s).1 = accepted.
Proof.
  unfold DisciplinesRoutes.post_actions_scrape.
  by destruct (scrapeDisciplines _ _ s).
Qed.

Lemma post_actions_scrape_snd (env : Env) (req : Request) (s : Scraper) :
  (DisciplinesRoutes.post_actions_scrape scrapeDisciplines env req s).2
  = (scrapeDisciplines (UERJ_MATRICULA env) (UERJ_SENHA env) s).2.
Proof.
  unfold DisciplinesRoutes.post_actions_scrape.
  by destruct (scrapeDisciplines _ _ s).
Qed.

Lemma serve_responses_from (env : Env) (evs : list DisciplinesRoutes.Event)
    (acc : list Outcome) (s : Scraper) :
  (foldl (λ st ev, DisciplinesRoutes.step scrapeDisciplines progress env ev st) (acc, s) evs).1
  = acc ++ map (λ _, accepted) (DisciplinesRoutes.triggers evs).
Proof.
  revert acc s. induction evs as [|ev evs IH]; intros acc s; simpl.
  - by rewrite app_nil_r.
  - destruct ev as [req|]; simpl.
    + pose proof (post_actions_scrape_fst env req s) as Hfst.
      destruct (DisciplinesRoutes.post_actions_scrape scrapeDisciplines env req s)
        as [o s'] eqn:Hpost.
      simpl in Hfst. subst o. rewrite IH. by rewrite <-app_assoc.
    + apply IH.
Qed.

(** C7. Whatever the crawl does when called and however it advances or ends
    afterwards, every trigger request is answered with the 202
    acknowledgment: the responses of the server are exactly one
    acknowledgment per trigger request, so nothing that happens inside a
    spawned run reaches a trigger response. *)
Theorem trigger_always_accepted (env : Env) (evs : list DisciplinesRoutes.Event)
    (req : Request) (s : Scraper) :
  (DisciplinesRoutes.post_actions_scrape scrapeDisciplines env req s).1
  = res_status_send 202 (MessageBody "Discipline scraping process started.")
  ∧ (DisciplinesRoutes.serve scrapeDisciplines progress env evs s).1
    = map (λ _, res_status_send 202 (MessageBody "Discipline scraping process started."))
          (DisciplinesRoutes.triggers evs).
Proof.
  split; [apply post_actions_scrape_fst|].
  unfold DisciplinesRoutes.serve. by rewrite serve_responses_from.
Qed.

End TriggerProperties.

Lemma spy_calls_from (env : Env) (evs : list DisciplinesRoutes.Event)
    (acc : list Outcome) (calls : list (option string * option string)) :
  (foldl (λ st ev, DisciplinesRoutes.step Fixtures.spy id env ev st) (acc, calls) evs).2
  = calls ++ map (λ _, (UERJ_MATRICULA env, UERJ_SENHA env)) (DisciplinesRoutes.triggers evs).
Proof.
  revert acc calls. induction evs as [|ev evs IH]; intros acc calls; simpl.
  - by rewrite app_nil_r.
  - destruct ev as [req|]; simpl.
    + rewrite IH. by rewrite <-app_assoc.
    + apply IH.
Qed.

(** C8. The trigger passes to the crawl the pair read from the process
    configuration and nothing of the request: two requests, whatever their
    parameters, headers and bodies, have the same effect and the same
    response, that of calling the scraper with [UERJ_MATRICULA] and
    [UERJ_SENHA]; and a scraper that records its arguments sees, over any
    sequence of requests, that one pair at every call. *)
Theorem trigger_credentials_from_env {Scraper Promise : Type}
    (scrapeDisciplines : option string → option string → Scraper → Promise * Scraper)
    (env : Env) (req1 req2 : Request) (s : Scraper)
    (evs : list DisciplinesRoutes.Event) :
  DisciplinesRoutes.post_actions_scrape scrapeDisciplines env req1 s
  = DisciplinesRoutes.post_actions_scrape scrapeDisciplines env req2 s
  ∧ (DisciplinesRoutes.post_actions_scrape scrapeDisciplines env req1 s).2
    = (scrapeDisciplines (UERJ_MATRICULA env) (UERJ_SENHA env) s).2
  ∧ (DisciplinesRoutes.serve Fixtures.spy id env evs []).2
    = map (λ _, (UERJ_MATRICULA env, UERJ_SENHA env)) (DisciplinesRoutes.triggers evs).
Proof.
  split_and!.
  - done.
  - apply post_actions_scrape_snd.
  - unfold DisciplinesRoutes.serve. by rewrite spy_calls_from.
Qed.

(** ** Single-flight guard *)

Module SyncGuardProperties.
Import SyncGuard.

Lemma activeRuns_finish (c : Completion) (l : list SyncRun) :
  filter (λ r, runStatus r = Active)
    (map (λ r, if decide (runStatus r = Active)
               then {| credentials := credentials r; runStatus := Ended c |}
               else r) l) = [].
Proof.
  induction l as [|r l IH]; [done|]. simpl.
  destruct (decide (runStatus r = Active)) as [Hr|Hr].
  - rewrite filter_cons_False by (simpl; congruence). exact IH.
  - rewrite filter_cons_False by done. exact IH.
Qed.

Lemma guard_inv_initial : guard_inv initial.
Proof. done. Qed.

Lemma guard_inv_scrapeDisciplines (m p : option string) (s : Scraper) :
  guard_inv s → guard_inv (scrapeDisciplines m p s).2.
Proof.
  unfold guard_inv, scrapeDisciplines, tryStart, activeRuns.
  destruct (running s) eqn:Hrun; simpl; [by rewrite Hrun|].
  intros Hlen. rewrite filter_app, length_app, Hlen.
  by rewrite filter_cons_True by done.
Qed.

Lemma guard_inv_finishRun (c : Completion) (s : Scraper) : guard_inv (finishRun c s).
Proof.
  unfold guard_inv, finishRun, release, activeRuns. simpl.
  by rewrite activeRuns_finish.
Qed.

Lemma guard_inv_step (env : Env) (ev : Event) (s : Scraper) :
  guard_inv s → guard_inv (step env ev s).
Proof.
  intros Hs. destruct ev as [req|c]; simpl.
  - rewrite post_actions_scrape_snd. by apply guard_inv_scrapeDisciplines.
  - apply guard_inv_finishRun.
Qed.

Lemma guard_inv_exec (env : Env) (evs : list Event) (s : Scraper) :
  guard_inv s → guard_inv (exec env evs s).
Proof.
  unfold exec. revert s. induction evs as [|ev evs IH]; intros s Hs; simpl; [done|].
  by apply IH, guard_inv_step.
Qed.

(** C2. In every state the guarded server can reach, at most one run is
    active; and while a run is active, a trigger does not start a second
    crawl: the entry point returns [AlreadyRunning] and leaves the runs as
    they are, the caller being acknowledged as usual; nothing is queued, so
    once the active run ends no run is active.  A trigger arriving when no
    run is active starts exactly one. *)
Theorem single_flight (env : Env) (evs : list Event) (req : Request) :
  length (activeRuns (exec env evs initial)) ≤ 1
  ∧ (activeRuns (exec env evs initial) ≠ [] →
       scrapeDisciplines (UERJ_MATRICULA env) (UERJ_SENHA env) (exec env evs initial)
       = (AlreadyRunning, exec env evs initial)
       ∧ DisciplinesRoutes.post_actions_scrape scrapeDisciplines env req (exec env evs initial)
         = (accepted, exec env evs initial)
       ∧ exec env (evs ++ [Trigger req]) initial = exec env evs initial
       ∧ ∀ c, activeRuns (exec env (evs ++ [Trigger req; RunEnds c]) initial) = [])
  ∧ (activeRuns (exec env evs initial) = [] →
       (scrapeDisciplines (UERJ_MATRICULA env) (UERJ_SENHA env) (exec env evs initial)).1
       = Started
       ∧ activeRuns (exec env (evs ++ [Trigger req]) initial)
         = [{| credentials := (UERJ_MATRICULA env, UERJ_SENHA env); runStatus := Active |}]).
Proof.
  pose proof (guard_inv_exec env evs initial guard_inv_initial) as Hinv.
  set (s := exec env evs initial) in *.
  assert (Hexec : exec env (evs ++ [Trigger req]) initial
                  = (scrapeDisciplines (UERJ_MATRICULA env) (UERJ_SENHA env) s).2).
  { unfold exec. rewrite foldl_app. simpl. by rewrite post_actions_scrape_snd. }
  unfold guard_inv in Hinv. split_and!.
  - rewrite Hinv. destruct (running s); lia.
  - intros Hactive.
    assert (Hrun : running s = true).
    { destruct (running s); [done|]. by destruct (activeRuns s). }
    assert (Hscrape : scrapeDisciplines (UERJ_MATRICULA env) (UERJ_SENHA env) s
                      = (AlreadyRunning, s)).
    { unfold scrapeDisciplines, tryStart. by rewrite Hrun. }
    split_and!; [done| | |].
    + unfold DisciplinesRoutes.post_actions_scrape. by rewrite Hscrape.
    + by rewrite Hexec, Hscrape.
    + intros c. unfold exec. rewrite foldl_app. simpl.
      unfold activeRuns, finishRun, release. simpl. apply activeRuns_finish.
  - intros Hactive.
    assert (Hrun : running s = false).
    { destruct (running s); [|done]. by rewrite Hactive in Hinv. }
    rewrite Hexec. unfold scrapeDisciplines, tryStart. rewrite Hrun. simpl.
    split; [done|]. unfold activeRuns in *. simpl.
    rewrite filter_app, Hactive. by rewrite filter_cons_True by done.
Qed.

(** Two triggers in a row on a fresh server: the first starts the only run,
    the second is told [AlreadyRunning] and changes nothing. *)
Lemma single_flight_witness :
  activeRuns (exec Fixtures.env [Trigger (Fixtures.request "a")] initial) ≠ []
  ∧ scrapeDisciplines (UERJ_MATRICULA Fixtures.env) (UERJ_SENHA Fixtures.env)
      (exec Fixtures.env [Trigger (Fixtures.request "a")] initial)
    = (AlreadyRunning, exec Fixtures.env [Trigger (Fixtures.request "a")] initial).
Proof.
  assert (H : activeRuns (exec Fixtures.env [Trigger (Fixtures.request "a")] initial) ≠ [])
    by (vm_compute; discriminate).
  split; [exact H|].
  exact (proj1 (proj1 (proj2 (single_flight Fixtures.env [Trigger (Fixtures.request "a")]
                                (Fixtures.request "b"))) H)).
Defined.

End SyncGuardProperties.

(** ** Reconciliation *)

Module ReconcilerProperties.
Import Reconciler.

Lemma findClass_Some_number (n : ClassNumber) (l : list ClassRecord) (c : ClassRecord) :
  findClass n l = Some c → c ∈ l ∧ number c = n.
Proof.
  intros (l1 & l2 & -> & Hn & _)%Array_find_Some.
  apply bool_decide_eq_true in Hn. split; [|done].
  apply elem_of_app. right. by left.
Qed.

Lemma findClass_None (n : ClassNumber) (l : list ClassRecord) :
  findClass n l = None ↔ ∀ c, c ∈ l → number c ≠ n.
Proof.
  unfold findClass. rewrite Array_find_None.
  split; intros H c Hc; specialize (H c Hc).
  - by apply bool_decide_eq_false in H.
  - by apply bool_decide_eq_false.
Qed.

Lemma findClass_is_Some (l : list ClassRecord) (c : ClassRecord) :
  c ∈ l → is_Some (findClass (number c) l).
Proof.
  intros Hc. destruct (findClass (number c) l) eqn:Hfind; [done|].
  by eapply findClass_None in Hfind.
Qed.

(** Merging keeps the class numbers, hence what each number resolves to. *)
Lemma findClass_merge (existing : option DisciplineRecord) (n : ClassNumber)
    (l : list ClassRecord) :
  findClass n (map (mergeClass existing) l) = mergeClass existing <$> findClass n l.
Proof.
  unfold findClass. induction l as [|c l IH]; [done|]. simpl.
  by destruct (bool_decide (number c = n)).
Qed.

Lemma carried_merge (id : string) (o : option DisciplineRecord) (rec : DisciplineRecord)
    (n : ClassNumber) :
  carriedWhatsappGroup (Some (mergeRecord id o rec)) n
  = match findClass n (classes rec) with
    | Some _ => carriedWhatsappGroup o n
    | None => None
    end.
Proof.
  unfold carriedWhatsappGroup at 1. simpl. rewrite findClass_merge.
  destruct (findClass n (classes rec)) as [c|] eqn:Hfind; [|done]. simpl.
  apply findClass_Some_number in Hfind as [_ ->]. done.
Qed.

Lemma mergeRecord_ext (id : string) (o1 o2 : option DisciplineRecord)
    (rec : DisciplineRecord) :
  (∀ c, c ∈ classes rec →
        carriedWhatsappGroup o1 (number c) = carriedWhatsappGroup o2 (number c)) →
  mergeRecord id o1 rec = mergeRecord id o2 rec.
Proof.
  intros Hext. unfold mergeRecord. f_equal.
  induction (classes rec) as [|c l IH]; [done|]. simpl. f_equal.
  - unfold mergeClass. f_equal. apply Hext. by left.
  - apply IH. intros c' Hc'. apply Hext. by right.
Qed.

(** Reconciling the same record again changes nothing. *)
Lemma mergeRecord_again (id : string) (o : option DisciplineRecord) (rec : DisciplineRecord) :
  mergeRecord id (Some (mergeRecord id o rec)) rec = mergeRecord id o rec.
Proof.
  apply mergeRecord_ext. intros c Hc. rewrite carried_merge.
  by destruct (findClass_is_Some _ _ Hc) as [c' ->].
Qed.

Lemma reconcile_lookup (id : string) (incoming : Incoming)
    (cat : gmap string DisciplineRecord) :
  reconcile id incoming cat !! id
  = match incoming with
    | Success rec => Some (mergeRecord id (cat !! id) rec)
    | Failure _ => cat !! id
    end.
Proof.
  destruct incoming as [rec|k]; [|done].
  unfold reconcile, upsertDiscipline, getDisciplineById. simpl.
  by rewrite lookup_insert_eq.
Qed.

Lemma reconcile_lookup_ne (id id' : string) (incoming : Incoming)
    (cat : gmap string DisciplineRecord) :
  id ≠ id' → reconcile id incoming cat !! id' = cat !! id'.
Proof.
  intros Hne. destruct incoming as [rec|k]; [|done].
  unfold reconcile, upsertDiscipline. simpl. by rewrite lookup_insert_ne.
Qed.

Lemma reconcile_well_keyed (id : string) (incoming : Incoming)
    (cat : gmap string DisciplineRecord) :
  well_keyed cat → well_keyed (reconcile id incoming cat).
Proof.
  intros Hwk id' d. destruct (decide (id = id')) as [<-|Hne].
  - rewrite reconcile_lookup. destruct incoming as [rec|k]; [|by apply Hwk].
    by intros [= <-].
  - rewrite reconcile_lookup_ne by done. apply Hwk.
Qed.

(** Writes for distinct disciplines commute. *)
Lemma reconcile_comm (id1 id2 : string) (i1 i2 : Incoming)
    (cat : gmap string DisciplineRecord) :
  id1 ≠ id2 →
  reconcile id1 i1 (reconcile id2 i2 cat) = reconcile id2 i2 (reconcile id1 i1 cat).
Proof.
  intros Hne. apply map_eq. intros k.
  destruct (decide (k = id1)) as [->|Hk1]; [|destruct (decide (k = id2)) as [->|Hk2]].
  - rewrite reconcile_lookup, (reconcile_lookup_ne id2 id1) by done.
    rewrite (reconcile_lookup_ne id2 id1) by done. by rewrite reconcile_lookup.
  - rewrite reconcile_lookup, (reconcile_lookup_ne id1 id2) by done.
    rewrite (reconcile_lookup_ne id1 id2) by done. by rewrite reconcile_lookup.
  - by rewrite !reconcile_lookup_ne by done.
Qed.

(** *** Stale records *)

Lemma knownDisciplineIds_elem_of (cat : gmap string DisciplineRecord) (id : string) :
  id ∈ knownDisciplineIds cat ↔ is_Some (cat !! id).
Proof.
  unfold knownDisciplineIds. rewrite list_elem_of_fmap. split.
  - intros ([k d] & -> & Hkd%elem_of_map_to_list). simpl. by exists d.
  - intros [d Hd]. exists (id, d). split; [done|]. by apply elem_of_map_to_list.
Qed.

Lemma remove_unseen_lookup (seen ids : list string) (cat : gmap string DisciplineRecord)
    (k : string) :
  foldl (λ c id, if decide (id ∈ seen) then c else removeDiscipline id c) cat ids !! k
  = if decide (k ∈ ids ∧ k ∉ seen) then None else cat !! k.
Proof.
  revert cat. induction ids as [|id ids IH]; intros cat; cbn [foldl].
  - case_decide as Hk; [|done]. by destruct Hk as [?%elem_of_nil _].
  - rewrite IH. clear IH. unfold removeDiscipline.
    destruct (decide (k ∈ ids ∧ k ∉ seen)) as [[Ha1 Ha2]|Ha];
      destruct (decide (k ∈ id :: ids ∧ k ∉ seen)) as [[Hb1 Hb2]|Hb];
      destruct (decide (id ∈ seen)) as [Hid|Hid]; try done.
    + exfalso. apply Hb. split; [by right|done].
    + exfalso. apply Hb. split; [by right|done].
    + exfalso. apply elem_of_cons in Hb1 as [->|Hb1]; [done|]. by apply Ha.
    + apply elem_of_cons in Hb1 as [->|Hb1]; [by rewrite lookup_delete_eq|].
      exfalso. by apply Ha.
    + rewrite lookup_delete_ne; [done|]. intros <-. apply Hb. split; [by left|done].
Qed.

Lemma finalizeRun_lookup (complete : bool) (seen : list string)
    (cat : gmap string DisciplineRecord) (k : string) :
  finalizeRun complete seen cat !! k
  = if complete then (if decide (k ∈ seen) then cat !! k else None) else cat !! k.
Proof.
  unfold finalizeRun. destruct complete; [|done].
  rewrite remove_unseen_lookup.
  destruct (decide (k ∈ seen)) as [Hk|Hk].
  - rewrite decide_False; [done|]. by intros [_ ?].
  - destruct (cat !! k) as [d|] eqn:Hd.
    + rewrite decide_True; [done|]. split; [|done].
      apply knownDisciplineIds_elem_of. by rewrite Hd.
    + by destruct (decide _).
Qed.

Lemma finalizeRun_well_keyed (complete : bool) (seen : list string)
    (cat : gmap string DisciplineRecord) :
  well_keyed cat → well_keyed (finalizeRun complete seen cat).
Proof.
  intros Hwk id d. rewrite finalizeRun_lookup.
  destruct complete; [|by apply Hwk]. destruct (decide _); [by apply Hwk|done].
Qed.

(** *** One run over a listing *)

Lemma processAll_lookup_not_attempted (fetchParse : string → Incoming)
    (refs : list string) (cat : gmap string DisciplineRecord) (k : string) :
  k ∉ refs → processAll fetchParse refs cat !! k = cat !! k.
Proof.
  unfold processAll. revert cat. induction refs as [|ref refs IH]; intros cat Hk; [done|].
  simpl. rewrite IH.
  - apply reconcile_lookup_ne. intros ->. apply Hk. by left.
  - intros ?. apply Hk. by right.
Qed.

Lemma processAll_lookup_failure (fetchParse : string → Incoming)
    (refs : list string) (cat : gmap string DisciplineRecord) (k : string)
    (kind : FailureKind) :
  fetchParse k = Failure kind → processAll fetchParse refs cat !! k = cat !! k.
Proof.
  intros Hk. unfold processAll. revert cat.
  induction refs as [|ref refs IH]; intros cat; [done|].
  simpl. rewrite IH. destruct (decide (ref = k)) as [->|Hne].
  - by rewrite reconcile_lookup, Hk.
  - by apply reconcile_lookup_ne.
Qed.

Lemma processAll_lookup_success_from (fetchParse : string → Incoming)
    (refs : list string) (cat0 cat : gmap string DisciplineRecord) (k : string)
    (rec : DisciplineRecord) :
  fetchParse k = Success rec →
  (cat !! k = Some (mergeRecord k (cat0 !! k) rec)
   ∨ (cat !! k = cat0 !! k ∧ k ∈ refs)) →
  processAll fetchParse refs cat !! k = Some (mergeRecord k (cat0 !! k) rec).
Proof.
  intros Hk. unfold processAll. revert cat.
  induction refs as [|ref refs IH]; intros cat Hcat; simpl.
  - destruct Hcat as [?|[_ ?%elem_of_nil]]; done.
  - apply IH. destruct (decide (ref = k)) as [->|Hne].
    + left. rewrite reconcile_lookup, Hk.
      destruct Hcat as [->|[-> _]]; [|done]. by rewrite mergeRecord_again.
    + rewrite reconcile_lookup_ne by done.
      destruct Hcat as [?|[? [?|?]%elem_of_cons]]; [by left|congruence|by right].
Qed.

Lemma processAll_lookup_success (fetchParse : string → Incoming)
    (refs : list string) (cat : gmap string DisciplineRecord) (k : string)
    (rec : DisciplineRecord) :
  fetchParse k = Success rec → k ∈ refs →
  processAll fetchParse refs cat !! k = Some (mergeRecord k (cat !! k) rec).
Proof.
  intros Hk Hin. apply processAll_lookup_success_from; [done|]. by right.
Qed.

Lemma processAll_is_Some (fetchParse : string → Incoming)
    (refs : list string) (cat : gmap string DisciplineRecord) (k : string) :
  is_Some (cat !! k) → is_Some (processAll fetchParse refs cat !! k).
Proof.
  unfold processAll. revert cat. induction refs as [|ref refs IH]; intros cat Hk; [done|].
  simpl. apply IH. destruct (decide (ref = k)) as [->|Hne].
  - rewrite reconcile_lookup. by destruct (fetchParse k).
  - by rewrite reconcile_lookup_ne.
Qed.

(** The order in which the workers get to the dispatched references does
    not matter. *)
Lemma processAll_Permutation (fetchParse : string → Incoming)
    (refs refs' : list string) (cat : gmap string DisciplineRecord) :
  refs ≡ₚ refs' → processAll fetchParse refs cat = processAll fetchParse refs' cat.
Proof.
  unfold processAll. intros Hperm. revert cat.
  induction Hperm as [|x l l' _ IH|x y l|l l' l'' _ IH1 _ IH2]; intros cat; simpl.
  - done.
  - apply IH.
  - f_equal. destruct (decide (x = y)) as [->|Hne]; [done|].
    by apply reconcile_comm.
  - by rewrite IH1.
Qed.

(** *** Reconciling a whole snapshot *)

Lemma reconcileSnapshot_cons (r : DisciplineRecord) (snap : list DisciplineRecord)
    (cat : gmap string DisciplineRecord) :
  reconcileSnapshot (r :: snap) cat
  = reconcileSnapshot snap (reconcile (disciplineId r) (Success r) cat).
Proof. done. Qed.

Lemma reconcileSnapshot_unmentioned (snap : list DisciplineRecord)
    (cat : gmap string DisciplineRecord) (k : string) :
  k ∉ map disciplineId snap → reconcileSnapshot snap cat !! k = cat !! k.
Proof.
  revert cat. induction snap as [|r snap IH]; intros cat Hk; [done|].
  rewrite reconcileSnapshot_cons, IH.
  - apply reconcile_lookup_ne. intros Heq. apply Hk. simpl. rewrite Heq. by left.
  - intros ?. apply Hk. simpl. by right.
Qed.

Lemma inEveryPayload_tail (k : string) (r : DisciplineRecord)
    (snap : list DisciplineRecord) (m : ClassNumber) :
  inEveryPayload k (r :: snap) m → inEveryPayload k snap m.
Proof. intros H r' Hr'. apply H. by right. Qed.

Lemma reconcileSnapshot_carried (snap : list DisciplineRecord)
    (cat : gmap string DisciplineRecord) (k : string) (m : ClassNumber) :
  inEveryPayload k snap m →
  carriedWhatsappGroup (reconcileSnapshot snap cat !! k) m
  = carriedWhatsappGroup (cat !! k) m.
Proof.
  revert cat. induction snap as [|r snap IH]; intros cat Hm; [done|].
  rewrite reconcileSnapshot_cons, IH by by eapply inEveryPayload_tail.
  destruct (decide (disciplineId r = k)) as [Hk|Hk].
  - rewrite Hk, reconcile_lookup, carried_merge.
    destruct (Hm r) as [c ->]; [by left|done|done].
  - by rewrite reconcile_lookup_ne.
Qed.

Lemma reconcileSnapshot_cong (snap : list DisciplineRecord)
    (c1 c2 : gmap string DisciplineRecord) (k : string) :
  k ∈ map disciplineId snap →
  (∀ m, inEveryPayload k snap m →
        carriedWhatsappGroup (c1 !! k) m = carriedWhatsappGroup (c2 !! k) m) →
  reconcileSnapshot snap c1 !! k = reconcileSnapshot snap c2 !! k.
Proof.
  revert c1 c2. induction snap as [|r snap IH]; intros c1 c2 Hk Hcarried.
  { by apply elem_of_nil in Hk. }
  rewrite !reconcileSnapshot_cons.
  destruct (decide (disciplineId r = k)) as [Hr|Hr].
  - destruct (decide (k ∈ map disciplineId snap)) as [Hin|Hout].
    + apply IH; [done|]. intros m Hm. rewrite Hr, !reconcile_lookup, !carried_merge.
      destruct (findClass m (classes r)) as [c|] eqn:Hfind; [|done].
      apply Hcarried. intros r' [->|Hr']%elem_of_cons Hid; [by rewrite Hfind|by apply Hm].
    + rewrite !reconcileSnapshot_unmentioned by done.
      rewrite Hr, !reconcile_lookup. f_equal. apply mergeRecord_ext.
      intros c Hc. apply Hcarried. intros r' [->|Hr']%elem_of_cons Hid.
      * by apply findClass_is_Some.
      * exfalso. apply Hout. rewrite <-Hid. by apply list_elem_of_fmap_2.
  - apply IH.
    + simpl in Hk. by apply elem_of_cons in Hk as [?|?].
    + intros m Hm. rewrite !reconcile_lookup_ne by done. apply Hcarried.
      intros r' [->|Hr']%elem_of_cons Hid; [done|by apply Hm].
Qed.

Lemma carried_Some (o : option DisciplineRecord) (n : ClassNumber) (link : string) :
  carriedWhatsappGroup o n = Some link ↔
  ∃ d c, o = Some d ∧ findClass n (classes d) = Some c ∧ whatsappGroup c = Some link.
Proof.
  unfold carriedWhatsappGroup. split.
  - destruct o as [d|]; [|done]. simpl.
    destruct (findClass n (classes d)) as [c|] eqn:Hc; [|done]. simpl. eauto.
  - intros (d & c & -> & Hc & Hlink). simpl. by rewrite Hc.
Qed.

(** Under the data model's invariant that class numbers are unique within a
    discipline, every class of the list is the one its number resolves to. *)
Lemma findClass_NoDup (l : list ClassRecord) (c : ClassRecord) :
  NoDup (map number l) → c ∈ l → findClass (number c) l = Some c.
Proof.
  unfold findClass. induction l as [|a l IH]; simpl.
  - by intros _ ?%elem_of_nil.
  - intros [Ha Hl]%NoDup_cons [->|Hc]%elem_of_cons.
    + by rewrite bool_decide_eq_true_2.
    + rewrite bool_decide_eq_false_2; [by apply IH|].
      intros Heq. apply Ha. rewrite Heq. by apply list_elem_of_fmap_2.
Qed.

(** C1. When the catalog holds discipline [id] and class number [n] of it
    resolves to a record whose whatsappGroup is [link], reconciling a
    successful payload for [id] leaves every other discipline alone and
    stores the merged record, in which: if the payload has a class numbered
    [n] (carrying a whatsappGroup value or not), number [n] resolves to a
    class with the payload's data and whatsappGroup still [link]; every
    class numbered [n] carries [link]; and number [n] is gone exactly when no
    class of the payload has that number.  The same holds for a whole
    snapshot in which every payload for [id] has a class numbered [n]. *)
Theorem whatsappGroup_preserved (cat : gmap string DisciplineRecord) (id : string)
    (d rec : DisciplineRecord) (n : ClassNumber) (old : ClassRecord) (link : string) :
  cat !! id = Some d →
  findClass n (classes d) = Some old →
  whatsappGroup old = Some link →
  (∃ d',
    reconcile id (Success rec) cat !! id = Some d'
    ∧ (∀ id', id' ≠ id → reconcile id (Success rec) cat !! id' = cat !! id')
    ∧ (∀ c, c ∈ classes rec → number c = n → whatsappGroup c = None →
         ∃ c', findClass n (classes d') = Some c' ∧ whatsappGroup c' = Some link)
    ∧ (∀ c, findClass n (classes rec) = Some c →
         findClass n (classes d')
         = Some {| number := n; schedule := schedule c; professor := professor c;
                   vacancies := vacancies c; whatsappGroup := Some link |})
    ∧ (∀ c', c' ∈ classes d' → number c' = n → whatsappGroup c' = Some link)
    ∧ (findClass n (classes d') = None ↔ ∀ c, c ∈ classes rec → number c ≠ n))
  ∧ (∀ snap, inEveryPayload id snap n →
       ∃ d' c', reconcileSnapshot snap cat !! id = Some d'
                ∧ findClass n (classes d') = Some c'
                ∧ whatsappGroup c' = Some link).
Proof.
  intros Hd Hold Hlink.
  assert (Hcarried : carriedWhatsappGroup (Some d) n = Some link).
  { apply carried_Some. eauto. }
  assert (Hfound : ∀ c, findClass n (classes rec) = Some c →
            findClass n (classes (mergeRecord id (Some d) rec))
            = Some {| number := n; schedule := schedule c; professor := professor c;
                      vacancies := vacancies c; whatsappGroup := Some link |}).
  { intros c Hc. simpl. rewrite findClass_merge, Hc. simpl.
    apply findClass_Some_number in Hc as [_ Hn]. unfold mergeClass.
    by rewrite Hn, Hcarried. }
  split.
  - exists (mergeRecord id (Some d) rec). split_and!.
    + by rewrite reconcile_lookup, Hd.
    + intros id' Hne. by apply reconcile_lookup_ne.
    + intros c Hc Hn _. subst n.
      destruct (findClass_is_Some _ _ Hc) as [c0 Hc0].
      rewrite (Hfound c0 Hc0). eauto.
    + exact Hfound.
    + simpl. intros c' (c & -> & Hc)%list_elem_of_fmap Hn. simpl in *.
      by rewrite Hn.
    + simpl. rewrite findClass_merge, <-findClass_None.
      by destruct (findClass n (classes rec)).
  - intros snap Hsnap.
    pose proof (reconcileSnapshot_carried snap cat id n Hsnap) as Heq.
    rewrite Hd, Hcarried in Heq.
    apply carried_Some in Heq as (d' & c' & Hd' & Hc' & Hlink'). eauto.
Qed.

(** The sample catalog: class 1 of IME01 keeps "linkA" when the portal
    reports it again without a whatsappGroup value. *)
Lemma whatsappGroup_preserved_witness :
  ∃ d',
    reconcile "IME01" (Success Fixtures.IME01_portal) Fixtures.catalog !! "IME01" = Some d'
    ∧ findClass (NumberInt 1) (classes d')
      = Some {| number := NumberInt 1; schedule := "QUA M3 M4"; professor := "Grace";
                vacancies := 10; whatsappGroup := Some "linkA" |}
    ∧ findClass (NumberInt 2) (classes d') = None.
Proof.
  destruct (whatsappGroup_preserved Fixtures.catalog "IME01" Fixtures.IME01
              Fixtures.IME01_portal (NumberInt 1) Fixtures.class1 "linkA"
              eq_refl eq_refl eq_refl) as [(d' & Hd' & _ & _ & Hfound & _) _].
  exists d'. split_and!; [exact Hd'|exact (Hfound _ eq_refl)|].
  rewrite reconcile_lookup in Hd'. injection Hd' as <-. reflexivity.
Defined.

(** C3. Reconciling an identical snapshot a second time, right after the
    first, leaves the catalog as the first application left it; so does
    reconciling one discipline's result again, and upserting a record
    again. *)
Theorem reconcile_idempotent (cat : gmap string DisciplineRecord)
    (snap : list DisciplineRecord) (id : string) (incoming : Incoming)
    (record : DisciplineRecord) :
  reconcileSnapshot snap (reconcileSnapshot snap cat) = reconcileSnapshot snap cat
  ∧ reconcile id incoming (reconcile id incoming cat) = reconcile id incoming cat
  ∧ upsertDiscipline record (upsertDiscipline record cat) = upsertDiscipline record cat.
Proof.
  split_and!.
  - apply map_eq. intros k.
    destruct (decide (k ∈ map disciplineId snap)) as [Hin|Hout].
    + apply reconcileSnapshot_cong; [done|]. intros m Hm.
      by apply reconcileSnapshot_carried.
    + by rewrite !reconcileSnapshot_unmentioned.
  - apply map_eq. intros k. destruct (decide (id = k)) as [<-|Hne].
    + rewrite !reconcile_lookup. destruct incoming as [rec|kind]; [|done].
      by rewrite mergeRecord_again.
    + by rewrite !reconcile_lookup_ne.
  - unfold upsertDiscipline. by rewrite insert_insert_eq.
Qed.

(** C4. A catalog discipline is removed by [finalizeRun] exactly when the
    enumeration was complete and its id was not seen; otherwise it stays as
    it was, and with an incomplete enumeration the whole catalog does.  In a
    run, the enumeration is complete exactly when the listing succeeded and
    every listed reference was attempted; a catalog discipline is gone
    after the run exactly when that holds and the listing does not name it,
    and a run that is partial or whose listing failed leaves every
    discipline it did not attempt untouched. *)
Theorem conditional_staleness (cat : gmap string DisciplineRecord)
    (listing : option (list string)) (fetchParse : string → Incoming) (dispatched : nat)
    (id : string) (d : DisciplineRecord) :
  cat !! id = Some d →
  (∀ complete seen,
     (finalizeRun complete seen cat !! id = None ↔ complete = true ∧ id ∉ seen)
     ∧ (finalizeRun complete seen cat !! id = None
        ∨ finalizeRun complete seen cat !! id = Some d)
     ∧ (complete = false → finalizeRun complete seen cat = cat))
  ∧ (enumerationComplete (runSync listing fetchParse dispatched cat).2 = true
     ↔ ∃ refs, listing = Some refs ∧ take dispatched refs = refs)
  ∧ ((runSync listing fetchParse dispatched cat).1 !! id = None
     ↔ ∃ refs, listing = Some refs ∧ take dispatched refs = refs ∧ id ∉ refs)
  ∧ (enumerationComplete (runSync listing fetchParse dispatched cat).2 = false →
     (∀ refs, listing = Some refs → id ∉ take dispatched refs) →
     (runSync listing fetchParse dispatched cat).1 !! id = Some d).
Proof.
  intros Hd.
  assert (Htake : ∀ refs : list string, length refs ≤ dispatched ↔ take dispatched refs = refs).
  { intros refs. split; [apply take_ge|].
    intros Heq. rewrite <-Heq at 1. rewrite length_take. lia. }
  split_and!.
  - intros complete seen. rewrite finalizeRun_lookup, Hd. split_and!.
    + destruct complete; [|by split; [|intros [? _]]].
      destruct (decide (id ∈ seen)); split; try done. by intros [_ ?].
    + destruct complete; [|by right]. destruct (decide _); [by right|by left].
    + by intros ->.
  - destruct listing as [refs|]; simpl.
    + rewrite bool_decide_eq_true, Htake. split; [by exists refs|].
      by intros (refs' & [= <-] & ?).
    + split; [done|]. by intros (refs' & ? & _).
  - destruct listing as [refs|]; simpl.
    + rewrite finalizeRun_lookup. destruct (bool_decide _) eqn:Hcomplete.
      * apply bool_decide_eq_true, Htake in Hcomplete. rewrite Hcomplete.
        destruct (decide (id ∈ refs)) as [Hin|Hout].
        -- destruct (processAll_is_Some fetchParse refs cat id) as [d' ->]; [by rewrite Hd|].
           split; [done|]. by intros (refs' & [= <-] & _ & ?).
        -- split; [|done]. intros _. by exists refs.
      * apply bool_decide_eq_false in Hcomplete. rewrite Htake in Hcomplete.
        destruct (processAll_is_Some fetchParse (take dispatched refs) cat id)
          as [d' ->]; [by rewrite Hd|].
        split; [done|]. by intros (refs' & [= <-] & ? & _).
    + rewrite Hd. split; [done|]. by intros (refs' & ? & _).
  - destruct listing as [refs|]; simpl; [|done].
    intros Hcomplete Hout. rewrite finalizeRun_lookup, Hcomplete.
    rewrite processAll_lookup_not_attempted; [done|]. by apply Hout.
Qed.

(** IME02 is absent from a fully successful enumeration of the sample
    catalog and is removed; IME01, which was listed, stays. *)
Lemma conditional_staleness_witness :
  Fixtures.catalog !! "IME02" = Some Fixtures.IME02
  ∧ (runSync (Some ["IME01"]) Fixtures.fetchParse 1 Fixtures.catalog).1 !! "IME02" = None
  ∧ (runSync None Fixtures.fetchParse 1 Fixtures.catalog).1 !! "IME02"
    = Some Fixtures.IME02.
Proof.
  split_and!; [reflexivity| |].
  - apply (conditional_staleness Fixtures.catalog (Some ["IME01"])
             Fixtures.fetchParse 1 "IME02" Fixtures.IME02 eq_refl).
    exists ["IME01"]. split_and!; [reflexivity|reflexivity|].
    intros [Heq|Hin]%elem_of_cons; [discriminate Heq|by apply elem_of_nil in Hin].
  - apply (conditional_staleness Fixtures.catalog None
             Fixtures.fetchParse 1 "IME02" Fixtures.IME02 eq_refl); [reflexivity|].
    intros refs Heq. discriminate Heq.
Defined.

(** C5. In a run in which the fetch or parse of an attempted discipline [X]
    fails, the record of [X] (if any) is the same after the run, the failure
    is reported in the summary, the run goes on over every listed reference
    and can still complete its enumeration, and every other attempted
    discipline whose fetch and parse succeed holds, after the run, exactly
    the record that reconciling its payload produces. *)
Theorem partial_failure_isolation (cat : gmap string DisciplineRecord)
    (refs : list string) (fetchParse : string → Incoming) (dispatched : nat)
    (X : string) (kind : FailureKind) :
  X ∈ take dispatched refs →
  fetchParse X = Failure kind →
  (runSync (Some refs) fetchParse dispatched cat).1 !! X = cat !! X
  ∧ (X, failed kind) ∈ outcomes (runSync (Some refs) fetchParse dispatched cat).2
  ∧ (outcomes (runSync (Some refs) fetchParse dispatched cat).2).*1 = refs
  ∧ (take dispatched refs = refs →
     enumerationComplete (runSync (Some refs) fetchParse dispatched cat).2 = true)
  ∧ (∀ Y rec, Y ∈ take dispatched refs → fetchParse Y = Success rec →
       (runSync (Some refs) fetchParse dispatched cat).1 !! Y
       = Some (mergeRecord Y (cat !! Y) rec)
       ∧ (runSync (Some refs) fetchParse dispatched cat).1 !! Y
         = reconcile Y (Success rec) cat !! Y
       ∧ (Y, succeeded) ∈ outcomes (runSync (Some refs) fetchParse dispatched cat).2).
Proof.
  intros HX Hfail. unfold runSync. cbn [fst snd outcomes enumerationComplete].
  split_and!.
  - rewrite finalizeRun_lookup, decide_True by done.
    rewrite (processAll_lookup_failure _ _ _ _ kind) by done.
    by destruct (bool_decide _).
  - apply elem_of_app. left. apply list_elem_of_fmap. exists X. by rewrite Hfail.
  - rewrite fmap_app, <-!list_fmap_compose.
    rewrite <-(take_drop dispatched refs) at 3. f_equal; by rewrite <-list_fmap_id.
  - intros Htake. apply bool_decide_eq_true. rewrite <-Htake at 1.
    rewrite length_take. lia.
  - intros Y rec HY Hok.
    assert (Hlookup : finalizeRun (bool_decide (length refs ≤ dispatched))
                        (take dispatched refs)
                        (processAll fetchParse (take dispatched refs) cat) !! Y
                      = Some (mergeRecord Y (cat !! Y) rec)).
    { rewrite finalizeRun_lookup, decide_True by done.
      rewrite (processAll_lookup_success _ _ _ _ rec) by done.
      by destruct (bool_decide _). }
    split_and!; [done|by rewrite reconcile_lookup|].
    apply elem_of_app. left. apply list_elem_of_fmap. exists Y. by rewrite Hok.
Qed.

(** A run over the sample catalog in which IME02 fails to parse: IME02 is
    unchanged. *)
Lemma partial_failure_isolation_witness :
  (runSync (Some ["IME01"; "IME02"]) Fixtures.fetchParse 2 Fixtures.catalog).1 !! "IME02"
  = Fixtures.catalog !! "IME02".
Proof.
  refine (proj1 (partial_failure_isolation Fixtures.catalog ["IME01"; "IME02"]
                   Fixtures.fetchParse 2 "IME02" ParseError _ eq_refl)).
  simpl. apply elem_of_cons. right. apply elem_of_cons. by left.
Defined.

End ReconcilerProperties.

(** * Further properties of the handlers *)

Lemma answers_within_intro (codes : list Z) (code : Z) (doc : Document) :
  code ∈ codes → answers_within codes (Answers code doc).
Proof. intros Hin. by exists code. Qed.

Lemma answer_update_contract {Db : Type} (call : Await UpdateResult * Db)
    (message error : string) :
  update_contract call (StudentsCrud.answer_update call message error) message error.
Proof.
  unfold update_contract, StudentsCrud.answer_update.
  destruct call as [[r|e] db']; simpl.
  - destruct (decide (matchedCount r = 0)) as [Hr|Hr]; simpl; split_and!.
    + done.
    + split; [by exists r|done].
    + split; [done|]. by intros (r' & [= <-] & ?).
    + intros e. by split.
    + apply answers_within_intro. set_solver.
    + done.
    + split; [done|]. by intros (r' & [= <-] & ?).
    + split; [by exists r|done].
    + intros e. by split.
    + apply answers_within_intro. set_solver.
  - split_and!.
    + done.
    + split; [done|]. by intros (r & ? & _).
    + split; [done|]. by intros (r & ? & _).
    + intros e'. split; [by intros [= ->]|by intros [= ->]].
    + apply answers_within_intro. set_solver.
Qed.

Section StudentsHandlers.
Context {Db : Type}.
Variable getStudentById : string → Db → Await (option Student).
Variable getAllDisciplines : Db → Await (list DisciplineRecord).
Variable getDisciplineById : string → Db → Await (option DisciplineRecord).
Variable createStudent : NewStudent → Db → Await unit * Db.
Variable updateStudent : StudentsCrud.StudentUpdate → Db → Await UpdateResult * Db.
Variable updateCompletedDisciplines : StudentsCrud.ArrayUpdate → Db → Await UpdateResult * Db.
Variable updateCurrentDisciplines : StudentsCrud.ArrayUpdate → Db → Await UpdateResult * Db.
Variable deleteStudent : string → Db → Await DeleteResult * Db.

(** Every handler of [src/routes/students.js] that wraps its storage calls in
    [try]/[catch] sends a response whatever the storage layer does, with a
    status among those its documentation lists. *)
Theorem students_guarded_handlers_answer (sid did : string) (nm ln : option string)
    (b : StudentsRoutes.CreateBody) (db : Db) :
  answers_within [200; 404; 500]%Z (StudentsCrud.get_student getStudentById sid db)
  ∧ answers_within [201; 400; 409; 500]%Z
      (reply_of (StudentsRoutes.post_student getStudentById createStudent b db).1)
  ∧ answers_within [200; 404; 500]%Z
      (StudentsCrud.patch_student updateStudent sid nm ln db).1
  ∧ answers_within [200; 404; 500]%Z
      (StudentsCrud.put_completed updateCompletedDisciplines sid did db).1
  ∧ answers_within [200; 404; 500]%Z
      (StudentsCrud.delete_completed updateCompletedDisciplines sid did db).1
  ∧ answers_within [200; 404; 500]%Z
      (StudentsCrud.put_current updateCurrentDisciplines sid did db).1
  ∧ answers_within [200; 404; 500]%Z
      (StudentsCrud.delete_current updateCurrentDisciplines sid did db).1
  ∧ answers_within [200; 404; 500]%Z
      (StudentsCrud.delete_student deleteStudent sid db).1.
Proof.
  split_and!.
  - unfold StudentsCrud.get_student.
    destruct (getStudentById sid db) as [[s|]|e]; apply answers_within_intro; set_solver.
  - unfold StudentsRoutes.post_student.
    destruct (_ || _); [apply answers_within_intro; set_solver|].
    destruct (getStudentById _ db) as [[s|]|e];
      [apply answers_within_intro; set_solver| |apply answers_within_intro; set_solver].
    destruct (createStudent _ db) as [[r|e] db']; apply answers_within_intro; set_solver.
  - apply answer_update_contract.
  - apply answer_update_contract.
  - apply answer_update_contract.
  - apply answer_update_contract.
  - apply answer_update_contract.
  - unfold StudentsCrud.delete_student.
    destruct (deleteStudent sid db) as [[r|e] db']; [destruct (decide _)|];
      apply answers_within_intro; set_solver.
Qed.

(** The two overlay handlers have no [catch].  Over student documents that
    carry both discipline arrays, the promise of each rejects, the handler
    having sent nothing, exactly when a storage call it reaches rejects, and
    with that call's reason; and each answers 404 'Student not found' exactly
    when the student lookup resolves to nothing, before the catalog is
    consulted at all. *)
Theorem overlay_handlers_escape (sid did e : string) (db : Db) :
  (StudentsRoutes.get_student_disciplines getStudentById getAllDisciplines sid db
   = Unhandled e
   ↔ getStudentById sid db = Rejects e
     ∨ ((∃ s, getStudentById sid db = Resolves (Some s))
        ∧ getAllDisciplines db = Rejects e))
  ∧ (StudentsRoutes.get_student_discipline getStudentById getDisciplineById sid did db
     = Unhandled e
     ↔ getStudentById sid db = Rejects e
       ∨ ((∃ s, getStudentById sid db = Resolves (Some s))
          ∧ getDisciplineById did db = Rejects e))
  ∧ (StudentsRoutes.get_student_disciplines getStudentById getAllDisciplines sid db
     = res_status_send 404 (ErrorBody "Student not found")
     ↔ getStudentById sid db = Resolves None)
  ∧ (StudentsRoutes.get_student_discipline getStudentById getDisciplineById sid did db
     = res_status_send 404 (ErrorBody "Student not found")
     ↔ getStudentById sid db = Resolves None).
Proof.
  unfold StudentsRoutes.get_student_disciplines, StudentsRoutes.get_student_discipline.
  destruct (getStudentById sid db) as [[s|]|e0];
    destruct (getAllDisciplines db) as [ds|e1];
    destruct (getDisciplineById did db) as [[d|]|e2];
    split_and!; split; try done; try (intros [?|[[? ?] ?]]; done);
    try (intros [= ->]; eauto); try (intros [[= ->]|[[? ?] ?]]; done);
    try (intros [[=]|[_ [= ->]]]; done).
Qed.

End StudentsHandlers.

Section StudentUpdates.
Context {Db : Type}.
Variable updateStudent : StudentsCrud.StudentUpdate → Db → Await UpdateResult * Db.
Variable updateCompletedDisciplines : StudentsCrud.ArrayUpdate → Db → Await UpdateResult * Db.
Variable updateCurrentDisciplines : StudentsCrud.ArrayUpdate → Db → Await UpdateResult * Db.
Variable deleteStudent : string → Db → Await DeleteResult * Db.

(** The five handlers that update a student stand in the same relation to
    their storage call: 404 exactly when nothing matched, 200 exactly when
    something did, 500 carrying the exception's message exactly when the call
    throws.  The [PUT] handlers ask for the one id to be added, the [DELETE]
    handlers for it to be removed, and none of them validates its input. *)
Theorem student_updates_contract (sid did : string) (nm ln : option string) (db : Db) :
  update_contract
    (updateStudent
       {| StudentsCrud.su_studentId := sid; StudentsCrud.su_name := nm;
          StudentsCrud.su_lastName := ln |} db)
    (StudentsCrud.patch_student updateStudent sid nm ln db)
    ("Student " +:+ sid +:+ " updated successfully") "Error updating student"
  ∧ update_contract
      (updateCompletedDisciplines
         {| StudentsCrud.au_studentId := sid; StudentsCrud.au_add := Some [did];
            StudentsCrud.au_remove := None |} db)
      (StudentsCrud.put_completed updateCompletedDisciplines sid did db)
      ("Discipline " +:+ did +:+ " added to student " +:+ sid) "Error updating the student"
  ∧ update_contract
      (updateCompletedDisciplines
         {| StudentsCrud.au_studentId := sid; StudentsCrud.au_add := None;
            StudentsCrud.au_remove := Some [did] |} db)
      (StudentsCrud.delete_completed updateCompletedDisciplines sid did db)
      ("Discipline " +:+ did +:+ " removed from student " +:+ sid)
      "Error updating the student"
  ∧ update_contract
      (updateCurrentDisciplines
         {| StudentsCrud.au_studentId := sid; StudentsCrud.au_add := Some [did];
            StudentsCrud.au_remove := None |} db)
      (StudentsCrud.put_current updateCurrentDisciplines sid did db)
      ("Discipline " +:+ did +:+ " added to student " +:+ sid) "Error updating the student"
  ∧ update_contract
      (updateCurrentDisciplines
         {| StudentsCrud.au_studentId := sid; StudentsCrud.au_add := None;
            StudentsCrud.au_remove := Some [did] |} db)
      (StudentsCrud.delete_current updateCurrentDisciplines sid did db)
      ("Discipline " +:+ did +:+ " removed from student " +:+ sid)
      "Error updating the student".
Proof. split_and!; apply answer_update_contract. Qed.

(** Deleting a student: 404 exactly when the storage call resolves having
    deleted nothing, 200 exactly when it deleted something, and one fixed
    500 body, without the exception's message, exactly when it throws; the
    store is left as the call leaves it. *)
Theorem delete_student_contract (sid : string) (db : Db) :
  (StudentsCrud.delete_student deleteStudent sid db).2 = (deleteStudent sid db).2
  ∧ ((StudentsCrud.delete_student deleteStudent sid db).1
     = Answers 404 (Plain (ErrorBody "Student not found"))
     ↔ ∃ r, (deleteStudent sid db).1 = Resolves r ∧ deletedCount r = 0)
  ∧ ((StudentsCrud.delete_student deleteStudent sid db).1
     = Answers 200 (Plain (MessageBody ("Student " +:+ sid +:+ " deleted successfully")))
     ↔ ∃ r, (deleteStudent sid db).1 = Resolves r ∧ deletedCount r ≠ 0)
  ∧ ((StudentsCrud.delete_student deleteStudent sid db).1
     = Answers 500 (Plain (ErrorBody "Error deleting the student"))
     ↔ ∃ e, (deleteStudent sid db).1 = Rejects e).
Proof.
  unfold StudentsCrud.delete_student.
  destruct (deleteStudent sid db) as [[r|e] db']; simpl.
  - destruct (decide (deletedCount r = 0)) as [Hr|Hr]; simpl; split_and!;
      try done; split; try done; eauto.
    + by intros (r' & [= <-] & ?).
    + by intros (? & ?).
    + by intros (r' & [= <-] & ?).
    + by intros (? & ?).
  - split_and!; try done; split; try done; eauto.
    + by intros (? & ? & _).
    + by intros (? & ? & _).
Qed.

End StudentUpdates.

Section DisciplinesHandlers.
Context {Db : Type}.
Variable Number_toString : Z → string.
Variable getAllDisciplines : Db → Await (list DisciplineRecord).
Variable getDisciplineById : string → Db → Await (option DisciplineRecord).
Variable updateWhatsappGroup :
  DisciplinesCrud.WhatsappUpdate → Db → Await UpdateResult * Db.

(** The three reading handlers of [src/routes/disciplines.js] have no
    [catch]: the promise of each rejects, the handler having sent nothing,
    exactly when its storage call rejects, and with that call's reason.  The
    listing never answers 404: an empty catalog is a 200 with an empty
    list. *)
Theorem disciplines_reads_escape (id classNumber e : string) (db : Db) :
  (DisciplinesCrud.get_disciplines getAllDisciplines db = Escapes e
   ↔ getAllDisciplines db = Rejects e)
  ∧ (DisciplinesCrud.get_discipline getDisciplineById id db = Escapes e
     ↔ getDisciplineById id db = Rejects e)
  ∧ (DisciplinesRoutes.get_class Number_toString getDisciplineById id classNumber db = Unhandled e
     ↔ getDisciplineById id db = Rejects e)
  ∧ (∀ ds, DisciplinesCrud.get_disciplines getAllDisciplines db
           = Answers 200 (DisciplineList ds)
           ↔ getAllDisciplines db = Resolves ds)
  ∧ (getAllDisciplines db = Resolves [] →
     DisciplinesCrud.get_disciplines getAllDisciplines db = Answers 200 (DisciplineList [])).
Proof.
  unfold DisciplinesCrud.get_disciplines, DisciplinesCrud.get_discipline,
    DisciplinesRoutes.get_class.
  split_and!.
  - destruct (getAllDisciplines db); split; by intros [= ->].
  - destruct (getDisciplineById id db) as [[d|]|e0]; split; by intros [= ->].
  - destruct (getDisciplineById id db) as [[d|]|e0]; [destruct (Array_find _ _)|..];
      split; by intros [= ->].
  - intros ds. destruct (getAllDisciplines db); split; by intros [= ->].
  - by intros ->.
Qed.

(** Updating a WhatsApp group link: the handler always answers; 404 exactly
    when the storage call resolves with nothing matched (it does not say
    whether the discipline or the class was missing), 200 naming the class
    exactly when something matched, and one fixed 500 body exactly when the
    call throws.  The link is passed on as the body has it, present or not. *)
Theorem patch_class_contract (id classNumber : string) (whatsappGroup : option string)
    (db : Db) :
  (DisciplinesCrud.patch_class updateWhatsappGroup id classNumber whatsappGroup db).2
  = (updateWhatsappGroup
       {| DisciplinesCrud.upd_disciplineId := id;
          DisciplinesCrud.upd_classNumber := classNumber;
          DisciplinesCrud.upd_whatsappGroup := whatsappGroup |} db).2
  ∧ ((DisciplinesCrud.patch_class updateWhatsappGroup id classNumber whatsappGroup db).1
     = Answers 404 (Plain (ErrorBody "Discipline or class not found"))
     ↔ ∃ r, (updateWhatsappGroup
               {| DisciplinesCrud.upd_disciplineId := id;
                  DisciplinesCrud.upd_classNumber := classNumber;
                  DisciplinesCrud.upd_whatsappGroup := whatsappGroup |} db).1
            = Resolves r ∧ matchedCount r = 0)
  ∧ ((DisciplinesCrud.patch_class updateWhatsappGroup id classNumber whatsappGroup db).1
     = Answers 200
         (Plain (MessageBody
                   ("WhatsApp group for class " +:+ classNumber
                    +:+ " updated successfully")))
     ↔ ∃ r, (updateWhatsappGroup
               {| DisciplinesCrud.upd_disciplineId := id;
                  DisciplinesCrud.upd_classNumber := classNumber;
                  DisciplinesCrud.upd_whatsappGroup := whatsappGroup |} db).1
            = Resolves r ∧ matchedCount r ≠ 0)
  ∧ ((DisciplinesCrud.patch_class updateWhatsappGroup id classNumber whatsappGroup db).1
     = Answers 500 (Plain (ErrorBody "Error updating the WhatsApp group"))
     ↔ ∃ e, (updateWhatsappGroup
               {| DisciplinesCrud.upd_disciplineId := id;
                  DisciplinesCrud.upd_classNumber := classNumber;
                  DisciplinesCrud.upd_whatsappGroup := whatsappGroup |} db).1
            = Rejects e)
  ∧ answers_within [200; 404; 500]%Z
      (DisciplinesCrud.patch_class updateWhatsappGroup id classNumber whatsappGroup db).1.
Proof.
  unfold DisciplinesCrud.patch_class.
  destruct (updateWhatsappGroup _ db) as [[r|e] db']; simpl.
  - destruct (decide (matchedCount r = 0)) as [Hr|Hr]; simpl; split_and!;
      try done; try (apply answers_within_intro; set_solver);
      split; try done; eauto.
    + by intros (r' & [= <-] & ?).
    + by intros (? & ?).
    + by intros (r' & [= <-] & ?).
    + by intros (? & ?).
  - split_and!; try done; try (apply answers_within_intro; set_solver);
      split; try done; eauto.
    + by intros (? & ? & _).
    + by intros (? & ? & _).
Qed.

(** The class lookup and the discipline lookup agree: a class the class
    route sends belongs to the discipline the discipline route sends and
    renders to the requested segment; the class route reports a missing
    discipline exactly when the discipline route does; and 'Class not
    found' means that the discipline is there and none of its classes
    renders to the segment. *)
Theorem class_lookup_within_discipline (id classNumber : string) (db : Db) :
  (∀ c, DisciplinesRoutes.get_class Number_toString getDisciplineById id classNumber db
        = res_status_send 200 (ClassBody c) →
        ∃ d, DisciplinesCrud.get_discipline getDisciplineById id db
             = Answers 200 (DisciplineDoc d)
             ∧ c ∈ classes d ∧ String_ Number_toString (number c) = classNumber)
  ∧ (DisciplinesRoutes.get_class Number_toString getDisciplineById id classNumber db
     = res_status_send 404 (ErrorBody "Discipline not found")
     ↔ DisciplinesCrud.get_discipline getDisciplineById id db
       = Answers 404 (Plain (ErrorBody "Discipline not found")))
  ∧ (DisciplinesRoutes.get_class Number_toString getDisciplineById id classNumber db
     = res_status_send 404 (ErrorBody "Class not found")
     ↔ ∃ d, DisciplinesCrud.get_discipline getDisciplineById id db
            = Answers 200 (DisciplineDoc d)
            ∧ ∀ c, c ∈ classes d → String_ Number_toString (number c) ≠ classNumber).
Proof.
  unfold DisciplinesRoutes.get_class, DisciplinesCrud.get_discipline.
  destruct (getDisciplineById id db) as [[d|]|e].
  - destruct (Array_find _ (classes d)) as [c0|] eqn:Hfind.
    + apply Array_find_Some in Hfind as (l1 & l2 & Hcl & Hc0 & _).
      apply bool_decide_eq_true in Hc0.
      split_and!.
      * intros c [= <-]. exists d. split_and!; [done| |done].
        rewrite Hcl. apply elem_of_app. right. by left.
      * by split.
      * split; [done|]. intros (d' & [= <-] & Hnone). exfalso.
        apply (Hnone c0); [|done]. rewrite Hcl. apply elem_of_app. right. by left.
    + split_and!.
      * done.
      * by split.
      * split; [|done]. intros _. exists d. split; [done|]. intros c Hc.
        eapply Array_find_None in Hfind; [|done]. by apply bool_decide_eq_false in Hfind.
  - split_and!; [done|by split|]. split; [done|]. by intros (d & ? & _).
  - split_and!; [done|by split|]. split; [done|]. by intros (d & ? & _).
Qed.

End DisciplinesHandlers.

(** ** The status overlay as a function of the student's sets *)

Lemma includes_ext (l1 l2 : list string) (x : string) :
  (∀ y, y ∈ l1 ↔ y ∈ l2) → includes l1 x = includes l2 x.
Proof.
  intros Hext. destruct (includes l2 x) eqn:H2.
  - apply includes_elem_of, Hext. by apply includes_elem_of.
  - apply includes_not_elem_of. rewrite Hext. by apply includes_not_elem_of.
Qed.

(** The status depends on the student only through the sets of ids in the
    two arrays, and on the discipline only through its id: order and
    repetitions in the arrays make no difference. *)
Theorem statusOf_set_semantics (s1 s2 : Student) (d1 d2 : DisciplineRecord) :
  disciplineId d1 = disciplineId d2 →
  (∀ y, y ∈ completedDisciplines s1 ↔ y ∈ completedDisciplines s2) →
  (∀ y, y ∈ currentDisciplines s1 ↔ y ∈ currentDisciplines s2) →
  StudentsRoutes.statusOf s1 d1 = StudentsRoutes.statusOf s2 d2.
Proof.
  intros Hid Hcompleted Hcurrent. unfold StudentsRoutes.statusOf.
  by rewrite Hid, (includes_ext _ _ _ Hcompleted), (includes_ext _ _ _ Hcurrent).
Qed.

Lemma statusOf_set_semantics_witness :
  StudentsRoutes.statusOf Fixtures.john Fixtures.IME02
  = StudentsRoutes.statusOf MemoryStore.johnShuffled Fixtures.IME02.
Proof.
  apply statusOf_set_semantics; [reflexivity| |]; intros y; simpl;
    rewrite !elem_of_cons; tauto.
Defined.

(** How the overlay moves when the student's completed set changes and the
    current set does not: once [x] is added, [x] is "completed" and every
    other discipline keeps its status; once [x] is taken out, [x] falls back
    to "in_progress" or "not_taken" according to the current set and every
    other discipline keeps its status. *)
Theorem statusOf_completed_change (before after : Student) (x : string)
    (d : DisciplineRecord) :
  (∀ y, y ∈ currentDisciplines after ↔ y ∈ currentDisciplines before) →
  ((∀ y, y ∈ completedDisciplines after ↔ y = x ∨ y ∈ completedDisciplines before) →
   StudentsRoutes.statusOf after d
   = if decide (disciplineId d = x) then "completed"
     else StudentsRoutes.statusOf before d)
  ∧ ((∀ y, y ∈ completedDisciplines after ↔ y ≠ x ∧ y ∈ completedDisciplines before) →
     StudentsRoutes.statusOf after d
     = if decide (disciplineId d = x)
       then (if decide (x ∈ currentDisciplines before) then "in_progress" else "not_taken")
       else StudentsRoutes.statusOf before d).
Proof.
  intros Hcurrent. unfold StudentsRoutes.statusOf.
  rewrite (includes_ext _ _ (disciplineId d) Hcurrent).
  split; intros Hcompleted.
  - destruct (decide (disciplineId d = x)) as [->|Hne].
    + rewrite (proj2 (includes_elem_of _ _)); [done|]. apply Hcompleted. by left.
    + destruct (includes (completedDisciplines before) (disciplineId d)) eqn:Hb.
      * rewrite (proj2 (includes_elem_of _ _)); [done|].
        apply Hcompleted. right. by apply includes_elem_of.
      * rewrite (proj2 (includes_not_elem_of _ _)); [done|].
        intros [?|Hin]%Hcompleted; [done|].
        apply includes_not_elem_of in Hb. done.
  - destruct (decide (disciplineId d = x)) as [->|Hne].
    + rewrite (proj2 (includes_not_elem_of _ _)); [|by intros [? _]%Hcompleted].
      destruct (decide (x ∈ currentDisciplines before)) as [Hin|Hout].
      * by rewrite (proj2 (includes_elem_of _ _)).
      * by rewrite (proj2 (includes_not_elem_of _ _)).
    + destruct (includes (completedDisciplines before) (disciplineId d)) eqn:Hb.
      * rewrite (proj2 (includes_elem_of _ _)); [done|].
        apply Hcompleted. split; [done|]. by apply includes_elem_of.
      * rewrite (proj2 (includes_not_elem_of _ _)); [done|].
        intros [_ Hin]%Hcompleted. apply includes_not_elem_of in Hb. done.
Qed.

Lemma statusOf_completed_change_witness :
  StudentsRoutes.statusOf MemoryStore.johnAfterIME03 Fixtures.IME03 = "completed"
  ∧ StudentsRoutes.statusOf MemoryStore.johnAfterIME03 Fixtures.IME02
    = StudentsRoutes.statusOf Fixtures.john Fixtures.IME02.
Proof.
  assert (Hcurrent : ∀ y, y ∈ currentDisciplines MemoryStore.johnAfterIME03
                          ↔ y ∈ currentDisciplines Fixtures.john) by done.
  assert (Hcompleted : ∀ y, y ∈ completedDisciplines MemoryStore.johnAfterIME03
                            ↔ y = "IME03" ∨ y ∈ completedDisciplines Fixtures.john).
  { intros y. simpl. rewrite !elem_of_cons. rewrite elem_of_nil. tauto. }
  split.
  - exact (proj1 (statusOf_completed_change Fixtures.john MemoryStore.johnAfterIME03
                    "IME03" Fixtures.IME03 Hcurrent) Hcompleted).
  - exact (proj1 (statusOf_completed_change Fixtures.john MemoryStore.johnAfterIME03
                    "IME03" Fixtures.IME02 Hcurrent) Hcompleted).
Defined.

Section OverlayAgreement.
Context {Db : Type}.
Variable getStudentById : string → Db → Await (option Student).
Variable getAllDisciplines : Db → Await (list DisciplineRecord).
Variable getDisciplineById : string → Db → Await (option DisciplineRecord).

(** The two overlay routes agree: an entry of the listing is what the
    single-discipline route answers for that discipline, provided the
    storage layer returns the same document by id. *)
Theorem overlay_routes_agree (sid : string) (db : Db)
    (out : list (DisciplineRecord * string)) (d : DisciplineRecord) (st : string) :
  StudentsRoutes.get_student_disciplines getStudentById getAllDisciplines sid db
  = res_status_send 200 (DisciplinesWithStatus out) →
  (d, st) ∈ out →
  getDisciplineById (disciplineId d) db = Resolves (Some d) →
  StudentsRoutes.get_student_discipline getStudentById getDisciplineById
    sid (disciplineId d) db
  = res_status_send 200 (DisciplineWithStatus d st).
Proof.
  unfold StudentsRoutes.get_student_disciplines, StudentsRoutes.get_student_discipline.
  destruct (getStudentById sid db) as [[student|]|e]; [|done..].
  destruct (getAllDisciplines db) as [ds|e]; [|done].
  intros [= <-] (d' & [= -> ->] & _)%list_elem_of_fmap ->. done.
Qed.

End OverlayAgreement.

Lemma overlay_routes_agree_witness :
  StudentsRoutes.get_student_discipline Fixtures.getStudentById Fixtures.getDisciplineById
    "20201010101" "IME02" Fixtures.memory
  = res_status_send 200 (DisciplineWithStatus Fixtures.IME02 "in_progress").
Proof.
  apply (overlay_routes_agree Fixtures.getStudentById Fixtures.getAllDisciplines
           Fixtures.getDisciplineById "20201010101" Fixtures.memory
           [(Fixtures.IME01, "completed"); (Fixtures.IME02, "in_progress");
            (Fixtures.IME03, "not_taken")] Fixtures.IME02 "in_progress").
  - reflexivity.
  - apply elem_of_cons. right. apply elem_of_cons. by left.
  - reflexivity.
Defined.

(** ** Creating a student *)

Lemma truthy_false_iff (v : option string) : truthy v = false ↔ lacks v.
Proof.
  unfold truthy, lacks. destruct v as [s|]; [|by split; [left|]].
  destruct (decide (s = "")) as [->|Hs].
  - by split; [right|].
  - rewrite bool_decide_eq_false_2 by done. simpl.
    split; [done|]. by intros [?|[= ?]].
Qed.

Lemma truthy_true_iff (v : option string) : truthy v = true ↔ ¬ lacks v.
Proof. rewrite <-truthy_false_iff. by destruct (truthy v). Qed.

Section StudentCreationMore.
Context {Db : Type}.
Variable getStudentById : string → Db → Await (option Student).
Variable getAllDisciplines : Db → Await (list DisciplineRecord).
Variable getDisciplineById : string → Db → Await (option DisciplineRecord).
Variable createStudent : NewStudent → Db → Await unit * Db.

(** [POST /students] answers 400 exactly when studentId, name or lastName
    is falsy, that is, absent from the body, [null], [false], [0] or the empty
    string, whatever the storage layer holds or does; the store is then left
    as it was. *)
Theorem post_student_required_fields (b : StudentsRoutes.CreateBody) (db : Db) :
  ((StudentsRoutes.post_student getStudentById createStudent b db).1
   = res_status_send 400 (ErrorBody "studentId, name and lastName are required")
   ↔ lacks (StudentsRoutes.body_studentId b)
     ∨ lacks (StudentsRoutes.body_name b)
     ∨ lacks (StudentsRoutes.body_lastName b))
  ∧ (lacks (StudentsRoutes.body_studentId b)
     ∨ lacks (StudentsRoutes.body_name b)
     ∨ lacks (StudentsRoutes.body_lastName b) →
     (StudentsRoutes.post_student getStudentById createStudent b db).2 = db).
Proof.
  rewrite <-!truthy_false_iff. split.
  - split.
    + unfold StudentsRoutes.post_student.
      destruct (truthy (StudentsRoutes.body_studentId b));
        destruct (truthy (StudentsRoutes.body_name b));
        destruct (truthy (StudentsRoutes.body_lastName b)); simpl; auto.
      destruct (getStudentById _ db) as [[s|]|e]; [done| |done].
      by destruct (createStudent _ db) as [[r|e] db'].
    + intros H. by rewrite post_student_invalid.
  - intros H. by rewrite post_student_invalid.
Qed.

(** The store after [POST /students] is the store before it, unless the
    three required fields are there and the lookup resolves to no student:
    only then is [createStudent] reached, and the store is the one it
    leaves. *)
Theorem post_student_store_frame (b : StudentsRoutes.CreateBody) (db : Db) :
  (StudentsRoutes.post_student getStudentById createStudent b db).2 = db
  ∨ (¬ lacks (StudentsRoutes.body_studentId b)
     ∧ ¬ lacks (StudentsRoutes.body_name b)
     ∧ ¬ lacks (StudentsRoutes.body_lastName b)
     ∧ getStudentById (field (StudentsRoutes.body_studentId b)) db = Resolves None
     ∧ (StudentsRoutes.post_student getStudentById createStudent b db).2
       = (createStudent
            {| new_studentId := field (StudentsRoutes.body_studentId b);
               new_name := field (StudentsRoutes.body_name b);
               new_lastName := field (StudentsRoutes.body_lastName b);
               new_completedDisciplines :=
                 default [] (StudentsRoutes.body_completedDisciplines b) |} db).2).
Proof.
  rewrite <-!truthy_true_iff. unfold StudentsRoutes.post_student.
  destruct (truthy (StudentsRoutes.body_studentId b));
    destruct (truthy (StudentsRoutes.body_name b));
    destruct (truthy (StudentsRoutes.body_lastName b)); simpl; auto.
  destruct (getStudentById _ db) as [[s|]|e]; [by left| |by left].
  right. split_and!; try done.
  by destruct (createStudent _ db) as [[r|e] db'].
Qed.

(** The handlers of the students router look a student up in the same way:
    for a request with the three required fields, [POST /students] answers
    409 exactly when [GET /students/:studentId] finds that student; and the
    overlay routes answer 404 'Student not found' exactly when
    [GET /students/:studentId] does. *)
Theorem student_lookup_agreement (b : StudentsRoutes.CreateBody) (sid did : string)
    (db : Db) :
  (StudentsRoutes.body_studentId b = Some sid →
   ¬ lacks (StudentsRoutes.body_studentId b) →
   ¬ lacks (StudentsRoutes.body_name b) →
   ¬ lacks (StudentsRoutes.body_lastName b) →
   ((StudentsRoutes.post_student getStudentById createStudent b db).1
    = res_status_send 409 (ErrorBody ("Student with ID " +:+ sid +:+ " already exists"))
    ↔ ∃ s, StudentsCrud.get_student getStudentById sid db = Answers 200 (StudentDoc s)))
  ∧ (StudentsRoutes.get_student_disciplines getStudentById getAllDisciplines sid db
     = res_status_send 404 (ErrorBody "Student not found")
     ↔ StudentsCrud.get_student getStudentById sid db
       = Answers 404 (Plain (ErrorBody "Student not found")))
  ∧ (StudentsRoutes.get_student_discipline getStudentById getDisciplineById sid did db
     = res_status_send 404 (ErrorBody "Student not found")
     ↔ StudentsCrud.get_student getStudentById sid db
       = Answers 404 (Plain (ErrorBody "Student not found"))).
Proof.
  split_and!.
  - intros Hsid H1%truthy_true_iff H2%truthy_true_iff H3%truthy_true_iff.
    unfold StudentsRoutes.post_student, StudentsCrud.get_student.
    rewrite H1, H2, H3, Hsid. simpl.
    destruct (getStudentById sid db) as [[s|]|e].
    + split; [by exists s|done].
    + split; [|by intros [? ?]].
      by destruct (createStudent _ db) as [[r|e] db'].
    + split; [done|by intros [? ?]].
  - unfold StudentsRoutes.get_student_disciplines, StudentsCrud.get_student.
    destruct (getStudentById sid db) as [[s|]|e]; [|done..].
    by destruct (getAllDisciplines db).
  - unfold StudentsRoutes.get_student_discipline, StudentsCrud.get_student.
    destruct (getStudentById sid db) as [[s|]|e]; [|done..].
    by destruct (getDisciplineById did db) as [[d|]|e].
Qed.

End StudentCreationMore.

(** Both sides of the agreement on the sample store: the sample student is
    found, and creating it again is refused. *)
Lemma student_lookup_agreement_witness :
  (StudentsRoutes.post_student Fixtures.getStudentById Fixtures.createStudent
     Fixtures.bodyOfJohn Fixtures.memory).1
  = res_status_send 409 (ErrorBody "Student with ID 20201010101 already exists").
Proof.
  apply (proj1 (student_lookup_agreement Fixtures.getStudentById
                  Fixtures.getAllDisciplines Fixtures.getDisciplineById
                  Fixtures.createStudent Fixtures.bodyOfJohn "20201010101" "IME01"
                  Fixtures.memory) eq_refl).
  - intros [H|H]; discriminate H.
  - intros [H|H]; discriminate H.
  - intros [H|H]; discriminate H.
  - exists Fixtures.john. reflexivity.
Defined.

(** ** Routing *)

Module RoutingProperties.
Import Routing.

Lemma same_literal_trans (a b x : string) :
  same_literal a x = true → same_literal b x = true → same_literal a b = true.
Proof.
  unfold same_literal. intros Ha%bool_decide_eq_true Hb%bool_decide_eq_true.
  apply bool_decide_eq_true. congruence.
Qed.

(** Two route paths whose shape one request path has overlap. *)
Lemma shaped_overlapping (p q : list Segment) (path : list string) :
  shaped p path = true → shaped q path = true → overlapping p q = true.
Proof.
  revert q path. induction p as [|s p IH]; intros q path Hp Hq.
  - destruct path; [|done]. by destruct q as [|[]].
  - destruct path as [|x path]; [by destruct s|].
    destruct q as [|t q]; [done|].
    assert (Hp' : shaped p path = true).
    { destruct s; simpl in Hp; by apply andb_prop in Hp as [_ ?]. }
    assert (Hq' : shaped q path = true).
    { destruct t; simpl in Hq; by apply andb_prop in Hq as [_ ?]. }
    specialize (IH q path Hp' Hq').
    destruct s as [a|n], t as [b|n']; simpl; try done.
    apply andb_true_intro. split; [|done].
    simpl in Hp, Hq.
    apply andb_prop in Hp as [Ha _]. apply andb_prop in Hq as [Hb _].
    by eapply same_literal_trans.
Qed.

(** In both routers, two different registered routes of one method have
    paths that do not overlap, and routes whose paths overlap have their
    parameters at the same places. *)
Lemma disciplinesRouter_apart (i j : nat) (ri rj : Route DisciplinesHandler) :
  disciplinesRouter !! i = Some ri → disciplinesRouter !! j = Some rj →
  overlapping (route_path ri) (route_path rj) = true →
  aligned (route_path ri) (route_path rj) = true
  ∧ (route_method ri = route_method rj → i = j).
Proof.
  destruct i as [|[|[|[|[|i]]]]]; destruct j as [|[|[|[|[|j]]]]];
    simpl; try done; intros [= <-] [= <-]; simpl; try done;
    intros Hover; vm_compute in Hover; try done; by split.
Qed.

Lemma studentsRouter_apart (i j : nat) (ri rj : Route StudentsHandler) :
  studentsRouter !! i = Some ri → studentsRouter !! j = Some rj →
  overlapping (route_path ri) (route_path rj) = true →
  aligned (route_path ri) (route_path rj) = true
  ∧ (route_method ri = route_method rj → i = j).
Proof.
  destruct i as [|[|[|[|[|[|[|[|[|[|i]]]]]]]]]];
    destruct j as [|[|[|[|[|[|[|[|[|[|j]]]]]]]]]];
    simpl; try done; intros [= <-] [= <-]; simpl; try done;
    intros Hover; vm_compute in Hover; try done; by split.
Qed.

Section Decoding.
Variable decodeURIComponent : string → option string.

Lemma match_path_Matched (pattern : list Segment) (path : list string)
    (params : list (string * string)) :
  match_path decodeURIComponent pattern path = Matched params ↔
  shaped pattern path = true
  ∧ decode_params decodeURIComponent pattern path = Some params.
Proof.
  unfold match_path. destruct (shaped pattern path); [|by split; [|intros [? _]]].
  destruct (decode_params _ pattern path) as [ps|].
  - split; [by intros [= ->]|by intros [_ [= ->]]].
  - split; [done|by intros [_ ?]].
Qed.

Lemma match_path_NoMatch (pattern : list Segment) (path : list string) :
  match_path decodeURIComponent pattern path = NoMatch ↔ shaped pattern path = false.
Proof.
  unfold match_path. destruct (shaped pattern path); [|done].
  by destruct (decode_params _ pattern path).
Qed.

(** Routes with parameters at the same places decode the same segments. *)
Lemma aligned_decode (p q : list Segment) (path : list string) :
  aligned p q = true →
  is_Some (decode_params decodeURIComponent p path) →
  is_Some (decode_params decodeURIComponent q path).
Proof.
  revert q path. induction p as [|s p IH]; intros q path Hal Hp.
  - destruct q; [|done]. by destruct path.
  - destruct q as [|t q]; [by destruct s|].
    destruct s as [a|n], t as [b|n']; try done; simpl in Hal.
    + destruct path as [|x path]; [done|]. simpl in *. by apply IH.
    + destruct path as [|x path]; [done|]. simpl in *.
      destruct (decodeURIComponent x) as [v|]; [|by destruct Hp].
      destruct (decode_params _ p path) as [ps|] eqn:Hps; [|by destruct Hp].
      destruct (IH q path Hal) as [qs ->]; [by rewrite Hps|]. done.
Qed.

(** What the router's search returns, for any route table. *)
Lemma dispatch_Routed {H : Type} (routes : list (Route H)) (m : Method)
    (path : list string) (h : H) (params : list (string * string)) :
  dispatch decodeURIComponent routes m path = Routed h params ↔
  ∃ i r, routes !! i = Some r ∧ route_method r = m ∧ route_handler r = h
         ∧ match_path decodeURIComponent (route_path r) path = Matched params
         ∧ ∀ j r', j < i → routes !! j = Some r' →
             match_path decodeURIComponent (route_path r') path = NoMatch
             ∨ ((∃ ps, match_path decodeURIComponent (route_path r') path = Matched ps)
                ∧ route_method r' ≠ m).
Proof.
  induction routes as [|r0 routes IH]; simpl.
  { split; [done|]. by intros (i & r & ? & _). }
  assert (Hshift :
    match_path decodeURIComponent (route_path r0) path = NoMatch
    ∨ ((∃ ps, match_path decodeURIComponent (route_path r0) path = Matched ps)
       ∧ route_method r0 ≠ m) →
    ((∃ i r, routes !! i = Some r ∧ route_method r = m ∧ route_handler r = h
        ∧ match_path decodeURIComponent (route_path r) path = Matched params
        ∧ ∀ j r', j < i → routes !! j = Some r' →
            match_path decodeURIComponent (route_path r') path = NoMatch
            ∨ ((∃ ps, match_path decodeURIComponent (route_path r') path = Matched ps)
               ∧ route_method r' ≠ m))
     ↔ ∃ i r, (r0 :: routes) !! i = Some r ∧ route_method r = m ∧ route_handler r = h
        ∧ match_path decodeURIComponent (route_path r) path = Matched params
        ∧ ∀ j r', j < i → (r0 :: routes) !! j = Some r' →
            match_path decodeURIComponent (route_path r') path = NoMatch
            ∨ ((∃ ps, match_path decodeURIComponent (route_path r') path = Matched ps)
               ∧ route_method r' ≠ m))).
  { intros H0. split.
    - intros (i & r & Hi & Hr & Hh & Hps & Hbefore). exists (S i), r.
      split_and!; try done. intros [|j] r' Hj Hr'; simpl in Hr'.
      + by injection Hr' as <-.
      + apply (Hbefore j r'); [lia|done].
    - intros (i & r & Hi & Hr & Hh & Hps & Hbefore). destruct i as [|i].
      + simpl in Hi. injection Hi as <-.
        destruct H0 as [H0|[_ H0]]; [by rewrite H0 in Hps|done].
      + exists i, r. split_and!; try done. intros j r' Hj Hr'.
        apply (Hbefore (S j) r'); [lia|done]. }
  destruct (match_path decodeURIComponent (route_path r0) path) as [| |ps0] eqn:Hmatch.
  - rewrite IH. apply Hshift. by left.
  - split; [done|]. intros (i & r & Hi & Hr & Hh & Hps & Hbefore). destruct i as [|i].
    + simpl in Hi. injection Hi as <-. by rewrite Hps in Hmatch.
    + destruct (Hbefore 0 r0 ltac:(lia) eq_refl) as [H0|[[ps H0] _]];
        by rewrite H0 in Hmatch.
  - destruct (decide (route_method r0 = m)) as [Hm|Hm].
    + split.
      * intros [= <- <-]. exists 0, r0. split_and!; try done. intros j r' Hj. lia.
      * intros (i & r & Hi & Hr & Hh & Hps & Hbefore). destruct i as [|i].
        -- simpl in Hi. injection Hi as <-. congruence.
        -- destruct (Hbefore 0 r0 ltac:(lia) eq_refl) as [H0|[_ H0]];
             [by rewrite H0 in Hmatch|done].
    + rewrite IH. apply Hshift. right. split; [by exists ps0|done].
Qed.

Lemma dispatch_of_apart {H : Type} (routes : list (Route H)) (m : Method)
    (path : list string) (r : Route H) (params : list (string * string)) :
  (∀ i j ri rj, routes !! i = Some ri → routes !! j = Some rj →
                overlapping (route_path ri) (route_path rj) = true →
                aligned (route_path ri) (route_path rj) = true
                ∧ (route_method ri = route_method rj → i = j)) →
  r ∈ routes → route_method r = m →
  match_path decodeURIComponent (route_path r) path = Matched params →
  dispatch decodeURIComponent routes m path = Routed (route_handler r) params.
Proof.
  intros Hapart (i & Hi)%list_elem_of_lookup Hm Hmatch.
  apply dispatch_Routed. exists i, r. split_and!; try done.
  intros j r' Hj Hr'.
  apply match_path_Matched in Hmatch as [Hshape Hdecode].
  destruct (shaped (route_path r') path) eqn:Hshape'.
  - right.
    destruct (Hapart i j r r' Hi Hr') as [Hal Huniq];
      [by eapply shaped_overlapping|].
    destruct (aligned_decode _ _ path Hal) as [ps' Hps']; [by rewrite Hdecode|].
    split.
    + exists ps'. by apply match_path_Matched.
    + intros Hm'. assert (i = j) by (apply Huniq; congruence). lia.
  - left. by apply match_path_NoMatch.
Qed.

(** No route of the two routers is shadowed: a request whose path matches a
    registered route of its method, its parameters decoding, is handled by
    that route with the decoded parameters, wherever the route stands in the
    table; and no request path has the shape of two routes of one method. *)
Theorem no_route_shadowed (m : Method) (path : list string) :
  (∀ r params, r ∈ disciplinesRouter → route_method r = m →
     match_path decodeURIComponent (route_path r) path = Matched params →
     dispatch decodeURIComponent disciplinesRouter m path
     = Routed (route_handler r) params)
  ∧ (∀ r params, r ∈ studentsRouter → route_method r = m →
       match_path decodeURIComponent (route_path r) path = Matched params →
       dispatch decodeURIComponent studentsRouter m path
       = Routed (route_handler r) params)
  ∧ (∀ i j ri rj, disciplinesRouter !! i = Some ri → disciplinesRouter !! j = Some rj →
       route_method ri = m → route_method rj = m →
       shaped (route_path ri) path = true →
       shaped (route_path rj) path = true → i = j)
  ∧ (∀ i j ri rj, studentsRouter !! i = Some ri → studentsRouter !! j = Some rj →
       route_method ri = m → route_method rj = m →
       shaped (route_path ri) path = true →
       shaped (route_path rj) path = true → i = j).
Proof.
  split_and!.
  - intros r params. apply dispatch_of_apart, disciplinesRouter_apart.
  - intros r params. apply dispatch_of_apart, studentsRouter_apart.
  - intros i j ri rj Hi Hj Hmi Hmj Hpi Hpj.
    eapply disciplinesRouter_apart; [done|done| |congruence].
    by eapply shaped_overlapping.
  - intros i j ri rj Hi Hj Hmi Hmj Hpi Hpj.
    eapply studentsRouter_apart; [done|done| |congruence].
    by eapply shaped_overlapping.
Qed.

Lemma decode_params_values (pattern : list Segment) (path : list string)
    (params : list (string * string)) :
  shaped pattern path = true →
  decode_params decodeURIComponent pattern path = Some params →
  params.*1 = param_names pattern
  ∧ Forall (λ kv, ∃ x, x ∈ path ∧ x ≠ "" ∧ decodeURIComponent x = Some kv.2) params.
Proof.
  revert path params. induction pattern as [|s pattern IH]; intros path params.
  - destruct path; [|done]. intros _ [= <-]. by split.
  - destruct path as [|x path]; [by destruct s|]. destruct s as [a|name]; simpl.
    + intros [_ Hshape]%andb_prop Hdecode.
      destruct (IH path params Hshape Hdecode) as [Hnames Hvalues]. split; [done|].
      eapply Forall_impl; [done|]. intros kv (y & ? & ? & ?). exists y.
      split_and!; [by right|done|done].
    + intros [Hx%negb_true_iff%bool_decide_eq_false Hshape]%andb_prop.
      destruct (decodeURIComponent x) as [v|] eqn:Hv; [|done].
      destruct (decode_params _ pattern path) as [ps|] eqn:Hps; [|done].
      intros [= <-]. destruct (IH path ps Hshape Hps) as [Hnames Hvalues].
      split.
      * unfold param_names in *. simpl. f_equal. exact Hnames.
      * constructor; [exists x; split_and!; [by left|done|done]|].
        eapply Forall_impl; [done|]. intros kv (y & ? & ? & ?). exists y.
        split_and!; [by right|done|done].
Qed.

Lemma decode_params_None (pattern : list Segment) (path : list string) :
  shaped pattern path = true →
  decode_params decodeURIComponent pattern path = None →
  ∃ x, x ∈ path ∧ x ≠ "" ∧ decodeURIComponent x = None.
Proof.
  revert path. induction pattern as [|s pattern IH]; intros path.
  - by destruct path.
  - destruct path as [|x path]; [by destruct s|]. destruct s as [a|name]; simpl.
    + intros [_ Hshape]%andb_prop Hdecode.
      destruct (IH path Hshape Hdecode) as (y & ? & ? & ?). exists y.
      split_and!; [by right|done|done].
    + intros [Hx%negb_true_iff%bool_decide_eq_false Hshape]%andb_prop.
      destruct (decodeURIComponent x) as [v|] eqn:Hv.
      * destruct (decode_params _ pattern path) as [ps|] eqn:Hps; [done|].
        intros _. destruct (IH path Hshape Hps) as (y & ? & ? & ?). exists y.
        split_and!; [by right|done|done].
      * intros _. exists x. split_and!; [by left|done|done].
Qed.

(** Whatever the route table: the parameters a handler is dispatched with
    are those its route path names, in order, and each value is the
    decoding of a non-empty segment of the request path, hence not empty
    either when decoding never empties a segment; and the router gives up
    with the decoding error only if a non-empty segment of the path does not
    decode. *)
Theorem dispatch_params {H : Type} (routes : list (Route H)) (m : Method)
    (path : list string) :
  match dispatch decodeURIComponent routes m path with
  | Routed h params =>
      ∃ r, r ∈ routes ∧ route_method r = m ∧ route_handler r = h
           ∧ params.*1 = param_names (route_path r)
           ∧ Forall (λ kv, ∃ x, x ∈ path ∧ x ≠ ""
                               ∧ decodeURIComponent x = Some kv.2) params
           ∧ ((∀ x v, decodeURIComponent x = Some v → x ≠ "" → v ≠ "") →
              Forall (λ kv, kv.2 ≠ "") params)
  | Undecodable => ∃ x, x ∈ path ∧ x ≠ "" ∧ decodeURIComponent x = None
  | Unrouted => True
  end.
Proof.
  induction routes as [|r0 routes IH]; simpl; [done|].
  destruct (match_path decodeURIComponent (route_path r0) path) as [| |ps0] eqn:Hmatch.
  - destruct (dispatch _ routes m path) as [| |h params]; [done|done|].
    destruct IH as (r & Hr & ?). exists r. split; [by right|done].
  - unfold match_path in Hmatch.
    destruct (shaped (route_path r0) path) eqn:Hshape; [|done].
    destruct (decode_params _ (route_path r0) path) eqn:Hdecode; [done|].
    by eapply decode_params_None.
  - destruct (decide (route_method r0 = m)) as [Hm|Hm].
    + apply match_path_Matched in Hmatch as [Hshape Hdecode].
      destruct (decode_params_values _ _ _ Hshape Hdecode) as [Hnames Hvalues].
      exists r0. split_and!; try done; [by left|].
      intros Hlaw. eapply Forall_impl; [done|].
      intros kv (x & _ & Hx & Hv). by eapply Hlaw.
    + destruct (dispatch _ routes m path) as [| |h params]; [done|done|].
      destruct IH as (r & Hr & ?). exists r. split; [by right|done].
Qed.

(** The crawl is triggered by [POST /disciplines/actions/scrape] and by no
    other request: [src/app.js] hands a request to the scrape handler
    exactly when its method is POST and its path has these three segments,
    in any letter case; the handler gets no path parameter. *)
Theorem scrape_trigger_route (m : Method) (path : list string)
    (params : list (string * string)) :
  app decodeURIComponent m path = Some (ToDisciplines PostScrape params)
  ↔ m = POST ∧ params = []
    ∧ ∃ a b c, path = [a; b; c]
               ∧ lower a = "disciplines" ∧ lower b = "actions" ∧ lower c = "scrape".
Proof.
  split.
  - unfold app. destruct path as [|a rest]; [done|].
    destruct (same_literal "api-docs" a); [done|].
    destruct (same_literal "disciplines" a) eqn:Ha.
    + destruct (dispatch _ disciplinesRouter m rest) as [| |h ps] eqn:Hd.
      * destruct (same_literal "students" a); [|done].
        by destruct (dispatch _ studentsRouter m rest).
      * done.
      * intros [= -> ->].
        apply dispatch_Routed in Hd as (i & r & Hi & Hm & Hh & Hmatch & _).
        destruct i as [|[|[|[|[|i]]]]]; simpl in Hi; try done;
          injection Hi as <-; try done.
        simpl in Hm. subst m.
        apply match_path_Matched in Hmatch as [Hshape Hdecode]. simpl in Hshape.
        destruct rest as [|b [|c [|? ?]]]; simpl in Hshape; try done.
        -- by destruct (same_literal "actions" b).
        -- apply andb_prop in Hshape as [Hb Hc]. rewrite andb_true_r in Hc.
           simpl in Hdecode. injection Hdecode as <-.
           apply bool_decide_eq_true in Ha, Hb, Hc.
           split_and!; try done. by exists a, b, c.
        -- apply andb_prop in Hshape as [_ Hc]. by apply andb_prop in Hc as [_ ?].
    + destruct (same_literal "students" a); [|done].
      by destruct (dispatch _ studentsRouter m rest).
  - intros (-> & -> & a & b & c & -> & Ha & Hb & Hc).
    assert (Hdocs : same_literal "api-docs" a = false).
    { unfold same_literal. rewrite Ha. by vm_compute. }
    assert (Hdisc : same_literal "disciplines" a = true).
    { unfold same_literal. rewrite Ha. by vm_compute. }
    assert (Hact : same_literal "actions" b = true).
    { unfold same_literal. rewrite Hb. by vm_compute. }
    assert (Hscr : same_literal "scrape" c = true).
    { unfold same_literal. rewrite Hc. by vm_compute. }
    unfold app. rewrite Hdocs, Hdisc.
    rewrite (dispatch_of_apart disciplinesRouter POST [b; c]
               {| route_method := POST; route_path := [Lit "actions"; Lit "scrape"];
                  route_handler := PostScrape |} []).
    + done.
    + apply disciplinesRouter_apart.
    + unfold disciplinesRouter. repeat (apply elem_of_cons; first [by left|right]).
    + done.
    + apply match_path_Matched. simpl. by rewrite Hact, Hscr.
Qed.

End Decoding.

(** The last route of the students table takes [DELETE /students/:studentId],
    although two other [DELETE] routes are registered before it. *)
Lemma no_route_shadowed_witness :
  dispatch decodePlain studentsRouter DELETE ["20201010101"]
  = Routed DeleteStudent [("studentId", "20201010101")].
Proof.
  apply (proj1 (proj2 (no_route_shadowed decodePlain DELETE ["20201010101"]))
           {| route_method := DELETE; route_path := [Param "studentId"];
              route_handler := DeleteStudent |}).
  - unfold studentsRouter. repeat (apply elem_of_cons; first [by left|right]).
  - reflexivity.
  - reflexivity.
Defined.

(** A class lookup whose literal segment is written with a capital: the
    handler gets the two parameters the route path names. *)
Lemma dispatch_params_witness :
  ∃ r, r ∈ disciplinesRouter ∧ route_method r = GET ∧ route_handler r = GetClass
       ∧ [("id", "IME01"); ("classNumber", "2")].*1 = param_names (route_path r)
       ∧ Forall (λ kv, ∃ x, x ∈ ["IME01"; "Classes"; "2"] ∧ x ≠ ""
                           ∧ decodePlain x = Some kv.2)
                [("id", "IME01"); ("classNumber", "2")]
       ∧ ((∀ x v, decodePlain x = Some v → x ≠ "" → v ≠ "") →
          Forall (λ kv, kv.2 ≠ "") [("id", "IME01"); ("classNumber", "2")]).
Proof.
  exact (dispatch_params decodePlain disciplinesRouter GET ["IME01"; "Classes"; "2"]).
Defined.

End RoutingProperties.


(** ** Creating the same student twice *)

Section CreateTwice.
Context {Db : Type}.
Variable getStudentById : string → Db → Await (option Student).
Variable createStudent : NewStudent → Db → Await unit * Db.

(** Over a storage layer in which a student that was created is found by
    its id, a request that was answered 201 is answered 409 when it is sent
    again, and the second request leaves the store alone. *)
Theorem post_student_twice (b : StudentsRoutes.CreateBody) (db db' : Db) (message : Body) :
  (∀ rec st st' r, createStudent rec st = (Resolves r, st') →
     ∃ s, getStudentById (new_studentId rec) st' = Resolves (Some s)) →
  StudentsRoutes.post_student getStudentById createStudent b db
  = (res_status_send 201 message, db') →
  ∃ sid, StudentsRoutes.body_studentId b = Some sid
         ∧ StudentsRoutes.post_student getStudentById createStudent b db'
           = (res_status_send 409
                (ErrorBody ("Student with ID " +:+ sid +:+ " already exists")), db').
Proof.
  intros Hlaw. unfold StudentsRoutes.post_student.
  destruct (_ || _) eqn:Hvalid; [done|].
  destruct (getStudentById _ db) as [[s|]|e]; [done| |done].
  destruct (createStudent _ db) as [[r|e] st'] eqn:Hcreate; [|done].
  intros [= _ ->]. apply Hlaw in Hcreate as [s Hs]. simpl in Hs.
  rewrite Hs.
  destruct (StudentsRoutes.body_studentId b) as [sid|] eqn:Hsid; [|done].
  by exists sid.
Qed.

End CreateTwice.

Lemma memory_created_is_found (rec : NewStudent) (st st' : Fixtures.Memory) (r : unit) :
  Fixtures.createStudent rec st = (Resolves r, st') →
  ∃ s, Fixtures.getStudentById (new_studentId rec) st' = Resolves (Some s).
Proof.
  unfold Fixtures.createStudent, Fixtures.getStudentById. intros [= _ <-]. simpl.
  induction (Fixtures.students st) as [|a l IH]; simpl.
  - rewrite bool_decide_eq_true_2 by done. eauto.
  - destruct (bool_decide (studentId a = new_studentId rec)); eauto.
Qed.

Lemma post_student_twice_witness :
  ∃ db' sid,
    StudentsRoutes.body_studentId Fixtures.bodyOfMary = Some sid
    ∧ StudentsRoutes.post_student Fixtures.getStudentById Fixtures.createStudent
        Fixtures.bodyOfMary db'
      = (res_status_send 409
           (ErrorBody ("Student with ID " +:+ sid +:+ " already exists")), db').
Proof.
  eexists.
  exact (post_student_twice Fixtures.getStudentById Fixtures.createStudent
           Fixtures.bodyOfMary Fixtures.memory _ _ memory_created_is_found eq_refl).
Defined.
